(** * Text heuristics and counters of the writing-assistant service

    A shallow embedding of [api/zjer.py]: the regular-expression scans
    (word count, passive voice, repeated words), the readability and
    suggestion thresholds, the sentiment tally, the process-wide counters and
    the request handlers that thread them.

    Conventions of the embedding.
    - A Python [str] is a list of code points.  The development covers the
      code points U+0000 to U+00FF, carried by [ascii]; the classes [\w] and
      [\s], [str.strip] and the case folding of [re.IGNORECASE] are those of
      Python 3 on that range.
    - The [text] field of a request is a string, as the interface of the
      service states; a request without it is answered with 400.
    - Python integers are [Z]; [len] is [Z.of_nat (length _)].
    - The averages are Python floats obtained by one true division of two
      integers, which is correctly rounded.  They are carried as exact
      rationals [Q]; the comparisons against 25 and 10 made by the code agree
      with the exact ones as long as a text has fewer than 2^49 sentences.
    - The sentence segmenter, the grammar tool, the sentiment classifier and
      the text generator are collaborators outside the program.  Each is a
      function of its argument and of a hidden environment, returns a value or
      an error message, and every call is written to a journal. *)

From Stdlib Require Import ZArith QArith Ascii String.
From stdpp Require Import gmap strings list.

Local Open Scope Z_scope.

(** ** Code points and their classes *)

Definition str := list ascii.

(** A literal of the source, as a list of code points. *)
Definition txt (s : string) : str := list_ascii_of_string s.

Definition code (c : ascii) : N := N_of_ascii c.

Definition in_range (lo hi : N) (c : ascii) : bool :=
  (lo <=? code c)%N && (code c <=? hi)%N.

(** [\w] of a [str] pattern: alphanumeric code points and the underscore. *)
Definition is_word_char (c : ascii) : bool :=
  in_range 48 57 c || in_range 65 90 c || in_range 95 95 c ||
  in_range 97 122 c || in_range 170 170 c || in_range 178 179 c ||
  in_range 181 181 c || in_range 185 186 c || in_range 188 190 c ||
  in_range 192 214 c || in_range 216 246 c || in_range 248 255 c.

(** [\s] of a [str] pattern, which is also what [str.strip()] removes. *)
Definition is_space (c : ascii) : bool :=
  in_range 9 13 c || in_range 28 32 c || in_range 133 133 c ||
  in_range 160 160 c.

(** Simple lower-casing, as [re.IGNORECASE] applies it. *)
Definition lower (c : ascii) : ascii :=
  if in_range 65 90 c || in_range 192 214 c || in_range 216 222 c
  then ascii_of_N (code c + 32)
  else c.

Definition len {A : Type} (l : list A) : Z := Z.of_nat (length l).

(** ** Strings: strip, split, substring, slices *)

Fixpoint lstrip (s : str) : str :=
  match s with
  | c :: t => if is_space c then lstrip t else s
  | [] => []
  end.

Definition rstrip (s : str) : str := rev (lstrip (rev s)).

(** [s.strip()] *)
Definition strip (s : str) : str := rstrip (lstrip s).

Definition newline : ascii := ascii_of_N 10.

(** [s.split('\n\n')]: [cur] holds, reversed, the piece being read. *)
Fixpoint split_from (cur : str) (s : str) : list str :=
  match s with
  | [] => [rev cur]
  | c :: t =>
      match t with
      | d :: u =>
          if (code c =? 10)%N && (code d =? 10)%N
          then rev cur :: split_from [] u
          else split_from (c :: cur) t
      | [] => split_from (c :: cur) t
      end
  end.

Definition split_paragraphs (s : str) : list str := split_from [] s.

Fixpoint is_prefix (p s : str) : bool :=
  match p, s with
  | [], _ => true
  | _ :: _, [] => false
  | a :: p', b :: s' => if decide (a = b) then is_prefix p' s' else false
  end.

(** [needle in s] on strings *)
Fixpoint contains (s needle : str) : bool :=
  is_prefix needle s ||
  match s with
  | [] => false
  | _ :: t => contains t needle
  end.

(** An index of a slice, brought into [0, n] as Python does. *)
Definition slice_index (n i : Z) : Z :=
  if i <? 0 then Z.max 0 (i + n) else Z.min i n.

(** [s[lo:hi]] *)
Definition slice (s : str) (lo hi : Z) : str :=
  let a := slice_index (len s) lo in
  let b := slice_index (len s) hi in
  take (Z.to_nat (b - a)) (drop (Z.to_nat a) s).

(** [s[:n]] for a literal [n >= 0] *)
Definition slice_to (n : nat) (s : str) : str := take n s.

(** [s[-n:]] for a literal [n > 0] *)
Definition slice_last (n : nat) (s : str) : str :=
  drop (length s - n)%nat s.

(** [s[n:]] for [n >= 0] *)
Definition slice_from (n : nat) (s : str) : str := drop n s.

(** ** The regular expressions of the source

    A backtracking matcher for the constructs the three patterns use:
    literals, the classes [\w] and [\s], [\b], concatenation, ordered
    alternation, greedy [+] on a class, one capturing group and its
    back-reference. *)

Inductive cclass := ClsWord | ClsSpace.

Definition in_class (k : cclass) (c : ascii) : bool :=
  match k with
  | ClsWord => is_word_char c
  | ClsSpace => is_space c
  end.

Inductive regex :=
| Eps
| Chr (c : ascii)
| Cls (k : cclass)
| Bnd
| Seq (r1 r2 : regex)
| Alt (r1 r2 : regex)
| Plus (k : cclass)
| Grp (r : regex)
| Ref.

(** A position in the subject: the code point before it, what is left to
    read, and the text captured by group 1 so far. *)
Record cursor := Cursor {
  before : option ascii;
  rest : str;
  grp : option str
}.

Definition wordy (o : option ascii) : bool :=
  match o with
  | Some c => is_word_char c
  | None => false
  end.

(** [\b]: exactly one side of the position is a word character. *)
Definition at_boundary (s : cursor) : bool :=
  xorb (wordy (before s)) (wordy (head (rest s))).

(** Two code points are equal, up to case when [ic] (IGNORECASE) is set. *)
Definition same_char (ic : bool) (a b : ascii) : bool :=
  if ic then bool_decide (lower a = lower b) else bool_decide (a = b).

(** Reads [w] at the cursor, for the back-reference. *)
Fixpoint eat (ic : bool) (w : str) (prev : option ascii) (s : str)
  : option (option ascii * str) :=
  match w with
  | [] => Some (prev, s)
  | a :: w' =>
      match s with
      | b :: s' => if same_char ic a b then eat ic w' (Some b) s' else None
      | [] => None
      end
  end.

Section Matcher.
Context {A : Type}.

(** Greedy repetition of a class, after its first code point: read one
    more and go on; when that fails, continue from here. *)
Fixpoint star (k : cclass) (cont : cursor -> option A)
    (prev : option ascii) (s : str) (g : option str) : option A :=
  match s with
  | c :: t =>
      if in_class k c then
        match star k cont (Some c) t g with
        | Some r => Some r
        | None => cont (Cursor prev s g)
        end
      else cont (Cursor prev s g)
  | [] => cont (Cursor prev s g)
  end.

Fixpoint run (ic : bool) (r : regex) (cont : cursor -> option A)
    (s : cursor) : option A :=
  match r with
  | Eps => cont s
  | Chr c =>
      match rest s with
      | x :: t =>
          if same_char ic c x then cont (Cursor (Some x) t (grp s)) else None
      | [] => None
      end
  | Cls k =>
      match rest s with
      | x :: t =>
          if in_class k x then cont (Cursor (Some x) t (grp s)) else None
      | [] => None
      end
  | Bnd => if at_boundary s then cont s else None
  | Seq r1 r2 => run ic r1 (run ic r2 cont) s
  | Alt r1 r2 =>
      match run ic r1 cont s with
      | Some x => Some x
      | None => run ic r2 cont s
      end
  | Plus k =>
      match rest s with
      | x :: t => if in_class k x then star k cont (Some x) t (grp s) else None
      | [] => None
      end
  | Grp r1 =>
      run ic r1
        (fun s' =>
           cont (Cursor (before s') (rest s')
                   (Some (take (length (rest s) - length (rest s'))%nat
                            (rest s)))))
        s
  | Ref =>
      match grp s with
      | Some w =>
          match eat ic w (before s) (rest s) with
          | Some (p, t) => cont (Cursor p t (grp s))
          | None => None
          end
      | None => None
      end
  end.
End Matcher.

(** A match object: [group(0)] and [group(1)]. *)
Record rematch := Rematch {
  group0 : str;
  group1 : option str
}.

(** The match that starts at this position, if there is one. *)
Definition match_at (ic : bool) (r : regex) (prev : option ascii) (s : str)
  : option rematch :=
  run ic r
    (fun e => Some (Rematch (take (length s - length (rest e))%nat s) (grp e)))
    (Cursor prev s None).

(** [re.finditer]: the matches from left to right, none overlapping another.
    [skip] counts the positions still covered by the last match.  The three
    patterns read at least one code point, so no match is empty. *)
Fixpoint finditer_from (ic : bool) (r : regex) (prev : option ascii)
    (s : str) (skip : nat) : list rematch :=
  match s with
  | [] =>
      match skip with
      | O => match match_at ic r prev [] with Some m => [m] | None => [] end
      | S _ => []
      end
  | c :: t =>
      match skip with
      | S n => finditer_from ic r (Some c) t n
      | O =>
          match match_at ic r prev s with
          | Some m =>
              m :: finditer_from ic r (Some c) t (length (group0 m) - 1)%nat
          | None => finditer_from ic r (Some c) t 0%nat
          end
      end
  end.

Definition finditer (ic : bool) (r : regex) (s : str) : list rematch :=
  finditer_from ic r None s 0%nat.

(** [re.findall] for a pattern without groups *)
Definition findall (ic : bool) (r : regex) (s : str) : list str :=
  map group0 (finditer ic r s).

(** A word of the pattern, letter by letter. *)
Fixpoint lit (w : str) : regex :=
  match w with
  | [] => Eps
  | [c] => Chr c
  | c :: w' => Seq (Chr c) (lit w')
  end.

(** [r1|r2|...] for [r1] and the listed alternatives, tried in this order. *)
Fixpoint alt (r : regex) (rs : list regex) : regex :=
  match rs with
  | [] => r
  | r' :: rs' => Alt r (alt r' rs')
  end.

Definition word (s : string) : regex := lit (txt s).

Definition one_of (w : string) (ws : list string) : regex :=
  alt (word w) (map word ws).

(** [r'\b\w+\b'] *)
Definition word_regex : regex := Seq Bnd (Seq (Plus ClsWord) Bnd).

(** [r'\b(?:am|is|are|was|were|be|been|being)\s+(\w+ed|written|done|made|said|known|gone|taken)\b'] *)
Definition passive_regex : regex :=
  Seq Bnd
    (Seq (one_of "am" ["is"; "are"; "was"; "were"; "be"; "been"; "being"])
       (Seq (Plus ClsSpace)
          (Seq (Grp (Alt (Seq (Plus ClsWord) (word "ed"))
                       (one_of "written"
                          ["done"; "made"; "said"; "known"; "gone"; "taken"])))
             Bnd))).

(** [r'\b(\w+)\s+\1\b'] *)
Definition repeated_word_regex : regex :=
  Seq Bnd (Seq (Grp (Plus ClsWord)) (Seq (Plus ClsSpace) (Seq Ref Bnd))).

(** [len(re.findall(r'\b\w+\b', s))] *)
Definition count_words (s : str) : Z := len (findall false word_regex s).

(** ** Data model *)

(** The global [stats] dictionary. *)
Record Stats := {
  words_checked : Z;
  grammar_errors_found : Z;
  suggestions_made : Z
}.

(** What the grammar tool reports for one finding. *)
Record LTMatch := {
  offset : Z;
  errorLength : Z;
  replacements : list str;
  ruleIssueType : str
}.

Record GrammarIssue := {
  gi_error : str;
  gi_context : str;
  gi_suggestions : list str;
  gi_rule : str;
  gi_offset : Z;
  gi_length : Z
}.

(** What the sentiment classifier returns for one input. *)
Record Classification := {
  cl_label : string;
  cl_score : Q
}.

Record SentimentResult := {
  preview : str;
  full_paragraph : str;
  label : string;
  score : Q
}.

Record Analysis := {
  char_count : Z;
  word_count : Z;
  sentence_count : Z;
  avg_word_length : Q;
  avg_sentence_length : Q;
  overall_sentiment : string;
  positive_paragraphs : Z;
  negative_paragraphs : Z;
  sentiment_results : list SentimentResult
}.

Record ReadabilityIssue := {
  issue : string;
  message : string
}.

Record LongSentence := {
  ls_sentence : str;
  ls_word_count : Z
}.

Record PassiveVoice := {
  pv_sentence : str;
  pv_match : str
}.

(** [repeated_word] is [match.group(1)], which Python leaves [None] when the
    group took no part in the match. *)
Record RepeatedWord := {
  rw_sentence : str;
  repeated_word : option str
}.

Record Suggestions := {
  long_sentences : list LongSentence;
  passive_voice : list PassiveVoice;
  repeated_words : list RepeatedWord;
  general_suggestions : list string
}.

Record Completion := {
  prompt : str;
  generated_text : str;
  full_text : str
}.

Inductive Body :=
| ErrorBody (error : string)
| HealthBody (status version : string) (components : list (string * string))
| StatsBody (s : Stats)
| ResetBody (msg : string) (s : Stats)
| GrammarBody (grammar_issues : list GrammarIssue) (total_issues : Z) (s : Stats)
| AnalyzeBody (analysis : Analysis)
    (readability_issues : list ReadabilityIssue) (s : Stats)
| SuggestBody (suggestions : Suggestions) (suggestion_count : Z) (s : Stats)
| CompleteBody (completion : Completion) (s : Stats).

Record Response := {
  http_status : Z;
  body : Body
}.

(** The JSON body of a request: the [text] field when it is there, and the
    optional [max_length]. *)
Record Request := {
  req_text : option str;
  req_max_length : option Z
}.

(** ** Collaborators, world and effects *)

Inductive outcome (A : Type) :=
| Ok (a : A)
| Err (msg : string).
Arguments Ok {A} a.
Arguments Err {A} msg.

Inductive call :=
| Segment (s : str)
| CheckGrammar (s : str)
| Classify (s : str)
| Generate (s : str) (max_new_tokens : Z).

Record Collaborators (E : Type) := {
  sent_tokenize : str -> E -> outcome (list str) * E;
  grammar_tool_check : str -> E -> outcome (list LTMatch) * E;
  sentiment_analyzer : str -> E -> outcome Classification * E;
  text_generator : str -> Z -> E -> outcome str * E
}.
Arguments sent_tokenize {E} _ _ _.
Arguments grammar_tool_check {E} _ _ _.
Arguments sentiment_analyzer {E} _ _ _.
Arguments text_generator {E} _ _ _ _.

(** The state of the process: the two globals of the module, the hidden
    state of the collaborators, and the journal of the calls made to them. *)
Record World (E : Type) := {
  stats : Stats;
  analysis_results : gmap str Analysis;
  env : E;
  journal : list call
}.
Arguments stats {E} _.
Arguments analysis_results {E} _.
Arguments env {E} _.
Arguments journal {E} _.

Definition zero_stats : Stats :=
  {| words_checked := 0; grammar_errors_found := 0; suggestions_made := 0 |}.

Definition sum (l : list Z) : Z := fold_left Z.add l 0.

(** [a / max(1, n)] on integers, a float in the source. *)
Definition average (a n : Z) : Q := inject_Z a / inject_Z (Z.max 1 n).

Definition Qltb (x y : Q) : bool :=
  match (x ?= y)%Q with
  | Lt => true
  | _ => false
  end.

Section Service.
Context {E : Type} (ext : Collaborators E).

(** Computations that read and write the world and may raise. *)
Definition M (A : Type) : Type := World E -> outcome A * World E.

Definition ret {A} (a : A) : M A := fun w => (Ok a, w).

Definition bind {A B} (m : M A) (f : A -> M B) : M B :=
  fun w =>
    match m w with
    | (Ok a, w') => f a w'
    | (Err e, w') => (Err e, w')
    end.

(** [try: m except Exception as e: h(str(e))] *)
Definition try_except {A} (m : M A) (h : string -> M A) : M A :=
  fun w =>
    match m w with
    | (Ok a, w') => (Ok a, w')
    | (Err e, w') => h e w'
    end.

Definition get_stats_now : M Stats := fun w => (Ok (stats w), w).

Definition set_stats (s : Stats) : M unit :=
  fun w =>
    (Ok tt, {| stats := s; analysis_results := analysis_results w;
               env := env w; journal := journal w |}).

Definition set_analysis_results (c : gmap str Analysis) : M unit :=
  fun w =>
    (Ok tt, {| stats := stats w; analysis_results := c;
               env := env w; journal := journal w |}).

Definition get_analysis_results : M (gmap str Analysis) :=
  fun w => (Ok (analysis_results w), w).

(** One call to a collaborator: it is journalled, it moves the hidden
    environment, and its error is raised here. *)
Definition external {A} (c : call) (f : E -> outcome A * E) : M A :=
  fun w =>
    let (r, e') := f (env w) in
    (r, {| stats := stats w; analysis_results := analysis_results w;
           env := e'; journal := journal w ++ [c] |}).
End Service.

Declare Scope service_scope.
Delimit Scope service_scope with M.
Notation "x <- m ;; k" := (bind m (fun x => k))
  (at level 100, m at next level, right associativity) : service_scope.
Notation "m ;; k" := (bind m (fun _ => k))
  (at level 100, right associativity) : service_scope.

(** ** The request handlers *)

Definition truthy (s : str) : bool :=
  match s with
  | [] => false
  | _ :: _ => true
  end.

(** The inner [for sentence in sentences: if needle in sentence: ... break]. *)
Fixpoint first_containing (needle : str) (sentences : list str)
  : option str :=
  match sentences with
  | [] => None
  | sentence :: more =>
      if contains sentence needle then Some sentence
      else first_containing needle more
  end.

(** [para[:50] + "..." if len(para) > 50 else para] *)
Definition preview_of (para : str) : str :=
  if 50 <? len para then slice_to 50 para ++ txt "..." else para.

(** [sum(1 for item in results if item["label"] == l)] *)
Definition count_label (l : string) (results : list SentimentResult) : Z :=
  fold_left (fun n item => if String.eqb (label item) l then n + 1 else n)
    results 0.

Definition long_issue : ReadabilityIssue :=
  {| issue := "long_sentences";
     message := "Sentences are quite long on average. Consider breaking some into shorter ones for better readability." |}.

Definition short_issue : ReadabilityIssue :=
  {| issue := "short_sentences";
     message := "Sentences are quite short on average. Consider combining some related ideas for better flow." |}.

Definition advice_shorten : string :=
  "Consider breaking long sentences into shorter ones for clarity.".
Definition advice_active : string :=
  "Try using more active voice to make your writing more engaging and direct.".
Definition advice_expand : string :=
  "Your text is quite short. Consider expanding your ideas for more depth.".
Definition advice_sections : string :=
  "Your text is quite long. Consider organizing it into clear sections.".

Definition respond (b : Body) : Response := {| http_status := 200; body := b |}.

Definition no_text : Response :=
  {| http_status := 400; body := ErrorBody "No text provided" |}.

Definition issue_of (text : str) (m : LTMatch) : GrammarIssue :=
  {| gi_error := slice text (offset m) (offset m + errorLength m);
     gi_context :=
       slice text (Z.max 0 (offset m - 20)) (offset m + errorLength m + 20);
     gi_suggestions :=
       match replacements m with
       | [] => [txt "No suggestions"]
       | _ :: _ => take 3 (replacements m)
       end;
     gi_rule := ruleIssueType m;
     gi_offset := offset m;
     gi_length := errorLength m |}.

Section Handlers.
Context {E : Type} (ext : Collaborators E).
Local Open Scope service_scope.

Definition Handler : Type := World E -> Response * World E.

(** The [try: ... except Exception as e: return jsonify(error=str(e)), 500]
    that wraps the body of a handler. *)
Definition guarded (m : M Response) : Handler :=
  fun w =>
    match m w with
    | (Ok r, w') => (r, w')
    | (Err e, w') => ({| http_status := 500; body := ErrorBody e |}, w')
    end.

Definition add_words_checked (n : Z) : M (E:=E) unit :=
  s <- get_stats_now ;;
  set_stats {| words_checked := words_checked s + n;
               grammar_errors_found := grammar_errors_found s;
               suggestions_made := suggestions_made s |}.

Definition add_grammar_errors_found (n : Z) : M (E:=E) unit :=
  s <- get_stats_now ;;
  set_stats {| words_checked := words_checked s;
               grammar_errors_found := grammar_errors_found s + n;
               suggestions_made := suggestions_made s |}.

Definition add_suggestions_made (n : Z) : M (E:=E) unit :=
  s <- get_stats_now ;;
  set_stats {| words_checked := words_checked s;
               grammar_errors_found := grammar_errors_found s;
               suggestions_made := suggestions_made s + n |}.

Definition health_check : Handler :=
  fun w =>
    (respond (HealthBody "healthy" "1.0.0"
                [("grammar_check", "active");
                 ("sentiment_analysis", "active");
                 ("text_generation", "active")]%string), w).

Definition get_stats : Handler :=
  fun w => (respond (StatsBody (stats w)), w).

Definition reset_stats : Handler :=
  fun w =>
    let w' := {| stats := zero_stats; analysis_results := ∅;
                 env := env w; journal := journal w |} in
    (respond (ResetBody "Stats reset successfully" (stats w')), w').

Definition check_grammar (req : Request) : Handler :=
  match req_text req with
  | None => fun w => (no_text, w)
  | Some text =>
      guarded
        (let words := count_words text in
         add_words_checked words ;;
         matches <- external (CheckGrammar text) (grammar_tool_check ext text) ;;
         let results :=
           fold_left (fun acc m => acc ++ [issue_of text m]) matches [] in
         add_grammar_errors_found (len results) ;;
         s <- get_stats_now ;;
         ret (respond (GrammarBody results (len results) s)))
  end.

(** The loop over [valid_paragraphs]; a failure of the classifier is
    caught paragraph by paragraph. *)
Fixpoint sentiment_loop (paragraphs : list str)
    (results : list SentimentResult) : M (E:=E) (list SentimentResult) :=
  match paragraphs with
  | [] => ret results
  | para :: more =>
      item <- try_except
                (let para_to_analyze := slice_to 512 para in
                 sentiment <- external (Classify para_to_analyze)
                                (sentiment_analyzer ext para_to_analyze) ;;
                 ret {| preview := preview_of para;
                        full_paragraph := para;
                        label := cl_label sentiment;
                        score := cl_score sentiment |})
                (fun _ =>
                   ret {| preview := preview_of para;
                          full_paragraph := para;
                          label := "NEUTRAL";
                          score := 1 # 2 |}) ;;
      sentiment_loop more (results ++ [item])
  end.

Definition valid_paragraph (p : str) : bool :=
  truthy (strip p) && (3 <? len (strip p)).

Definition readability (avg_sentence_length : Q) (sentence_count : Z)
  : list ReadabilityIssue :=
  if Qltb 25 avg_sentence_length then [long_issue]
  else if Qltb avg_sentence_length 10 && (3 <? sentence_count)
       then [short_issue]
       else [].

Definition overall (positive_count negative_count : Z) : string :=
  if negative_count <? positive_count then "Mostly Positive"
  else if positive_count <? negative_count then "Mostly Negative"
  else "Neutral".

Definition analyze_text (req : Request) : Handler :=
  match req_text req with
  | None => fun w => (no_text, w)
  | Some text =>
      guarded
        (let char_count := len text in
         let word_count := count_words text in
         sentence_count <-
           (if truthy (strip text)
            then tokens <- external (Segment text) (sent_tokenize ext text) ;;
                 ret (len tokens)
            else ret 0) ;;
         add_words_checked word_count ;;
         let words := findall false word_regex text in
         let avg_word_length := average (sum (map len words)) (len words) in
         sentences <-
           (if truthy (strip text)
            then external (Segment text) (sent_tokenize ext text)
            else ret []) ;;
         let avg_sentence_length :=
           average (sum (map count_words sentences)) (len sentences) in
         let paragraphs := split_paragraphs text in
         let valid_paragraphs := List.filter valid_paragraph paragraphs in
         sentiment_results <- sentiment_loop valid_paragraphs [] ;;
         let readability_issues :=
           readability avg_sentence_length sentence_count in
         let positive_count := count_label "POSITIVE" sentiment_results in
         let negative_count := count_label "NEGATIVE" sentiment_results in
         let overall_sentiment := overall positive_count negative_count in
         let analysis :=
           {| char_count := char_count;
              word_count := word_count;
              sentence_count := sentence_count;
              avg_word_length := avg_word_length;
              avg_sentence_length := avg_sentence_length;
              overall_sentiment := overall_sentiment;
              positive_paragraphs := positive_count;
              negative_paragraphs := negative_count;
              sentiment_results := sentiment_results |} in
         cache <- get_analysis_results ;;
         set_analysis_results (<[slice_to 100 text := analysis]> cache) ;;
         s <- get_stats_now ;;
         ret (respond (AnalyzeBody analysis readability_issues s)))
  end.

Definition scan_long (sentences : list str) : list LongSentence :=
  fold_left
    (fun acc sentence =>
       let word_count := count_words sentence in
       if 25 <? word_count
       then acc ++ [{| ls_sentence := sentence; ls_word_count := word_count |}]
       else acc)
    sentences [].

Definition scan_passive (text : str) (sentences : list str)
  : list PassiveVoice :=
  fold_left
    (fun acc m =>
       match first_containing (group0 m) sentences with
       | Some sentence =>
           acc ++ [{| pv_sentence := sentence; pv_match := group0 m |}]
       | None => acc
       end)
    (finditer true passive_regex text) [].

Definition scan_repeated (text : str) (sentences : list str)
  : list RepeatedWord :=
  fold_left
    (fun acc m =>
       match first_containing (group0 m) sentences with
       | Some sentence =>
           acc ++ [{| rw_sentence := sentence; repeated_word := group1 m |}]
       | None => acc
       end)
    (finditer true repeated_word_regex text) [].

Definition general (long_count passive_count words : Z) : list string :=
  let general_suggestions := [] in
  let general_suggestions :=
    if 2 <? long_count then general_suggestions ++ [advice_shorten]
    else general_suggestions in
  let general_suggestions :=
    if 2 <? passive_count then general_suggestions ++ [advice_active]
    else general_suggestions in
  if words <? 100 then general_suggestions ++ [advice_expand]
  else if 1000 <? words then general_suggestions ++ [advice_sections]
  else general_suggestions.

Definition suggest_improvements (req : Request) : Handler :=
  match req_text req with
  | None => fun w => (no_text, w)
  | Some text =>
      guarded
        (let words := count_words text in
         add_words_checked words ;;
         sentences <- external (Segment text) (sent_tokenize ext text) ;;
         let long_sentences := scan_long sentences in
         let passive_voice := scan_passive text sentences in
         let repeated_words := scan_repeated text sentences in
         let general_suggestions :=
           general (len long_sentences) (len passive_voice) words in
         let suggestion_count :=
           len long_sentences + len passive_voice + len repeated_words
           + len general_suggestions in
         add_suggestions_made suggestion_count ;;
         let suggestions :=
           {| long_sentences := long_sentences;
              passive_voice := passive_voice;
              repeated_words := repeated_words;
              general_suggestions := general_suggestions |} in
         s <- get_stats_now ;;
         ret (respond (SuggestBody suggestions suggestion_count s)))
  end.

Definition complete_text (req : Request) : Handler :=
  match req_text req with
  | None => fun w => (no_text, w)
  | Some text =>
      let max_length := default 50 (req_max_length req) in
      guarded
        (let last_chars :=
           if 100 <? len text then slice_last 100 text else text in
         full_text <- external (Generate last_chars max_length)
                        (text_generator ext last_chars max_length) ;;
         let new_text := slice_from (length last_chars) full_text in
         add_suggestions_made 1 ;;
         s <- get_stats_now ;;
         ret (respond (CompleteBody
                         {| prompt := last_chars;
                            generated_text := new_text;
                            full_text := full_text |} s)))
  end.
End Handlers.

(** ** Reference definitions used by the statements *)

(** The word count as the specification words it: the maximal runs of word
    characters, counted where each one starts.  [inside] tells whether the
    code point before [s] is a word character. *)
Fixpoint count_runs (inside : bool) (s : str) : nat :=
  match s with
  | [] => 0%nat
  | c :: t =>
      ((if is_word_char c && negb inside then 1 else 0)
       + count_runs (is_word_char c) t)%nat
  end.

(** Where the run of word characters that holds [x] ends: its last code
    point and what follows it. *)
Fixpoint run_end (x : ascii) (t : str) : ascii * str :=
  match t with
  | c :: t' => if is_word_char c then run_end c t' else (x, t)
  | [] => (x, [])
  end.

Definition whitespace (s : str) : Prop := Forall (fun c => is_space c = true) s.

(** What it means for a pattern to take the subject from one cursor to
    another. *)
Fixpoint den (ic : bool) (r : regex) (c c' : cursor) : Prop :=
  match r with
  | Eps => c' = c
  | Chr a =>
      exists x, rest c = x :: rest c' /\ same_char ic a x = true /\
                grp c' = grp c
  | Cls k =>
      exists x, rest c = x :: rest c' /\ in_class k x = true /\
                grp c' = grp c
  | Bnd => at_boundary c = true /\ c' = c
  | Seq r1 r2 => exists m, den ic r1 c m /\ den ic r2 m c'
  | Alt r1 r2 => den ic r1 c c' \/ den ic r2 c c'
  | Plus k =>
      exists x more,
        rest c = x :: more ++ rest c' /\ in_class k x = true /\
        Forall (fun y => in_class k y = true) more /\ grp c' = grp c
  | Grp r1 =>
      exists m,
        den ic r1 c m /\ rest c' = rest m /\
        grp c' = Some (take (length (rest c) - length (rest m))%nat (rest c))
  | Ref =>
      exists w w',
        grp c = Some w /\ rest c = w' ++ rest c' /\
        Forall2 (fun a b => same_char ic a b = true) w w' /\
        grp c' = grp c
  end.

(** Equal up to case. *)
Definition same_word (a b : str) : Prop := map lower a = map lower b.

(** Made of word characters only. *)
Definition word_chars (s : str) : Prop := Forall (fun c => is_word_char c = true) s.

(** The two word lists of the passive-voice pattern. *)
Definition auxiliaries : list string :=
  ["am"; "is"; "are"; "was"; "were"; "be"; "been"; "being"].
Definition irregular_participles : list string :=
  ["written"; "done"; "made"; "said"; "known"; "gone"; "taken"].

(** A word, whitespace, and the same word again up to case; group 1 is the
    first of the two. *)
Definition repeated_pair (m : rematch) : Prop :=
  exists w sp w',
    group0 m = w ++ sp ++ w' /\ group1 m = Some w /\
    w <> [] /\ word_chars w /\ sp <> [] /\ whitespace sp /\ same_word w w'.

(** An auxiliary, whitespace, and a word that ends in -ed or is one of the
    irregular participles, all up to case; group 1 is that word. *)
Definition passive_phrase (m : rematch) : Prop :=
  exists aux sp v,
    group0 m = aux ++ sp ++ v /\ group1 m = Some v /\
    (exists a, a ∈ auxiliaries /\ same_word aux (txt a)) /\
    sp <> [] /\ whitespace sp /\
    ((exists stem e, v = stem ++ e /\ stem <> [] /\ word_chars stem /\
                     same_word e (txt "ed")) \/
     (exists p, p ∈ irregular_participles /\ same_word v (txt p))).

(** A request that carries a text. *)
Definition request (text : str) (max_length : option Z) : Request :=
  {| req_text := Some text; req_max_length := max_length |}.

(** The counters after [n] more words, and after [n] more suggestions. *)
Definition bump_words (n : Z) (s : Stats) : Stats :=
  {| words_checked := words_checked s + n;
     grammar_errors_found := grammar_errors_found s;
     suggestions_made := suggestions_made s |}.

Definition bump_suggestions (n : Z) (s : Stats) : Stats :=
  {| words_checked := words_checked s;
     grammar_errors_found := grammar_errors_found s;
     suggestions_made := suggestions_made s + n |}.

(** The world after one call [c] that left the collaborators in [e], with
    the counters at [s]. *)
Definition with_call {E : Type} (c : call) (e : E) (s : Stats) (w : World E)
  : World E :=
  {| stats := s; analysis_results := analysis_results w;
     env := e; journal := journal w ++ [c] |}.

(** The number of results that carry the label [l]. *)
Definition labelled (l : string) (results : list SentimentResult) : nat :=
  length (filter (fun item => label item = l) results).

(** A readability issue with this name is in the list. *)
Definition has_issue (name : string) (issues : list ReadabilityIssue) : Prop :=
  exists i, i ∈ issues /\ issue i = name.

(** The sentence a match is attached to: the first one that contains the
    matched text, if any. *)
Definition attach {X : Type} (sentences : list str) (h : str -> rematch -> X)
    (matches : list rematch) : list X :=
  omap (fun m => (fun s => h s m) <$> first_containing (group0 m) sentences)
    matches.

(** ** Collaborators for the worked cases *)

Module Demo.
(** Everything answers: the segmenter returns the text as one sentence,
    the grammar tool finds nothing, the classifier says POSITIVE and the
    generator continues the prompt. *)
Definition steady : Collaborators unit :=
  {| sent_tokenize := fun s e => (Ok [s], e);
     grammar_tool_check := fun _ e => (Ok [], e);
     sentiment_analyzer :=
       fun _ e => (Ok {| cl_label := "POSITIVE"; cl_score := 9 # 10 |}, e);
     text_generator := fun s _ e => (Ok (s ++ txt " and more"), e) |}.

(** Nothing answers. *)
Definition offline : Collaborators unit :=
  {| sent_tokenize := fun _ e => (Err "punkt not found", e);
     grammar_tool_check := fun _ e => (Err "LanguageTool unreachable", e);
     sentiment_analyzer := fun _ e => (Err "model not loaded", e);
     text_generator := fun _ _ e => (Err "model not loaded", e) |}.

(** The segmenter answers once and fails from then on; the environment
    counts its calls. *)
Definition flaky : Collaborators nat :=
  {| sent_tokenize :=
       fun s e =>
         match e with
         | O => (Ok [s], S e)
         | S _ => (Err "punkt not found", S e)
         end;
     grammar_tool_check := fun _ e => (Ok [], e);
     sentiment_analyzer :=
       fun _ e => (Ok {| cl_label := "NEGATIVE"; cl_score := 8 # 10 |}, e);
     text_generator := fun s _ e => (Ok s, e) |}.

Definition fresh {E : Type} (e : E) : World E :=
  {| stats := zero_stats; analysis_results := ∅; env := e; journal := [] |}.

Definition cat_text : str := txt "The cat cat sat on on the mat".

(** Three paragraphs; the middle one is too short to be classified. *)
Definition letter : str :=
  txt "Good day to you. All is well here." ++ [newline; newline] ++
  txt " ab " ++ [newline; newline] ++ txt "Write back soon.".

Definition blank : str := txt "  " ++ [newline; newline] ++ txt " ".

(** What /analyze answers on [letter]. *)
Definition letter_response : Response :=
  Eval vm_compute in
    (analyze_text steady (request letter None) (fresh tt)).1.
End Demo.

(** * Properties *)

Ltac unfold_service :=
  unfold guarded, add_words_checked, add_grammar_errors_found,
    add_suggestions_made, bind, try_except, ret, get_stats_now, set_stats,
    get_analysis_results, set_analysis_results, external in *.

Ltac no_member H :=
  exfalso;
  repeat (apply elem_of_cons in H as [H | H]; [discriminate H |]);
  apply elem_of_nil in H; exact H.

Ltac member :=
  solve [repeat first [apply list_elem_of_here | apply list_elem_of_further]].

Ltac advice_iff :=
  split; intros Hx;
  first [lia | member | no_member Hx | exfalso; lia].


(** ** Words *)

Lemma space_not_word c : is_space c = true -> is_word_char c = false.
Proof.
  destruct c as [[] [] [] [] [] [] [] []]; vm_compute; intros H;
    first [reflexivity | discriminate H].
Qed.

Lemma run_end_split x t :
  exists pre,
    t = pre ++ (run_end x t).2 /\
    Forall (fun c => is_word_char c = true) pre.
Proof.
  revert x. induction t as [|c t IH]; intros x; simpl.
  - exists []. split; [reflexivity | constructor].
  - destruct (is_word_char c) eqn:Hc.
    + destruct (IH c) as (pre & Ht & Hpre).
      exists (c :: pre). split; [simpl; congruence | constructor; assumption].
    + exists []. split; [reflexivity | constructor].
Qed.

Section WordMatch.
Context {A : Type} (k : cursor -> option A).

Lemma star_word_boundary t x g :
  is_word_char x = true ->
  star ClsWord (fun s => if at_boundary s then k s else None) (Some x) t g =
  k (Cursor (Some (run_end x t).1) (run_end x t).2 g).
Proof.
  revert x. induction t as [|c t IH]; intros x Hx; cbn [star run_end in_class].
  - unfold at_boundary; simpl. rewrite Hx. reflexivity.
  - destruct (is_word_char c) eqn:Hc.
    + rewrite (IH c Hc).
      destruct (k _); [reflexivity |].
      unfold at_boundary; simpl. rewrite Hx, Hc. reflexivity.
    + unfold at_boundary; simpl. rewrite Hx, Hc. reflexivity.
Qed.
End WordMatch.

Lemma match_at_word prev s :
  match_at false word_regex prev s =
  match s with
  | x :: t =>
      if is_word_char x && negb (wordy prev)
      then Some (Rematch (take (length s - length (run_end x t).2)%nat s) None)
      else None
  | [] => None
  end.
Proof.
  unfold match_at, word_regex. cbn [run rest grp before].
  unfold at_boundary at 1. cbn [rest before].
  destruct s as [|x t]; cbn [head wordy].
  - destruct (wordy prev); reflexivity.
  - cbn [in_class]. destruct (is_word_char x) eqn:Hx.
    + destruct (wordy prev); cbn [xorb andb negb]; [reflexivity |].
      rewrite star_word_boundary by assumption. reflexivity.
    + destruct (wordy prev); reflexivity.
Qed.

Lemma finditer_words_count s :
  forall prev skip,
    (skip <= length s)%nat ->
    Forall (fun c => is_word_char c = true) (take skip s) ->
    (0 < skip -> wordy prev = true)%nat ->
    length (finditer_from false word_regex prev s skip) =
    count_runs (wordy prev) s.
Proof.
  induction s as [|c t IH]; intros prev skip Hle Hall Hprev.
  - destruct skip; simpl; [| reflexivity].
    rewrite match_at_word. reflexivity.
  - destruct skip as [|n].
    + cbn [finditer_from]. rewrite match_at_word.
      cbn [count_runs].
      destruct (is_word_char c && negb (wordy prev)) eqn:Hm.
      * apply andb_prop in Hm as [Hc Hp].
        destruct (run_end_split c t) as (pre & Ht & Hpre).
        remember (run_end c t).2 as r eqn:Hr. clear Hr. subst t.
        cbn [length group0].
        assert (Hn : (length (take (S (length (pre ++ r)) - length r)
                                (c :: pre ++ r)) - 1 = length pre)%nat).
        { rewrite length_take. cbn [length]. rewrite length_app. lia. }
        rewrite Hn, IH.
        -- simpl. rewrite Hc. reflexivity.
        -- rewrite length_app. lia.
        -- rewrite take_app_length. assumption.
        -- intros _. exact Hc.
      * rewrite IH; [| lia | constructor | lia].
        simpl. reflexivity.
    + cbn [finditer_from]. simpl in Hall. inversion Hall as [|? ? Hc Hrest]; subst.
      rewrite IH; [| simpl in Hle; lia | assumption | intros _; exact Hc].
      cbn [count_runs wordy]. rewrite Hprev by lia. rewrite Hc. reflexivity.
Qed.

Lemma count_words_runs s : count_words s = Z.of_nat (count_runs false s).
Proof.
  unfold count_words, findall, finditer, len. rewrite length_map.
  rewrite finditer_words_count; [reflexivity | lia | constructor | lia].
Qed.

Lemma count_runs_whitespace b s : whitespace s -> count_runs b s = 0%nat.
Proof.
  intros H. revert b. induction H as [|c s Hc _ IH]; intros b; simpl.
  - reflexivity.
  - rewrite (space_not_word c Hc). simpl. apply IH.
Qed.

Lemma count_runs_leading p t :
  whitespace p -> count_runs false (p ++ t) = count_runs false t.
Proof.
  induction 1 as [|c p Hc _ IH]; simpl; [reflexivity |].
  rewrite (space_not_word c Hc). simpl. exact IH.
Qed.

Lemma count_runs_trailing b t s :
  whitespace s -> count_runs b (t ++ s) = count_runs b t.
Proof.
  intros Hs. revert b. induction t as [|c t IH]; intros b; simpl.
  - apply count_runs_whitespace. assumption.
  - rewrite IH. reflexivity.
Qed.

(** C6. Adding whitespace before and after a text does not change the word
    count of the metrics routine, [len(re.findall(r'\b\w+\b', text))]; that
    count is the number of maximal runs of word characters. *)
Theorem C6_word_count_padding (p t s : str) :
  whitespace p -> whitespace s ->
  count_words (p ++ t ++ s) = count_words t /\
  count_words t = Z.of_nat (count_runs false t).
Proof.
  intros Hp Hs. split; [| apply count_words_runs].
  rewrite !count_words_runs.
  rewrite count_runs_leading, count_runs_trailing by assumption.
  reflexivity.
Qed.

(** ** The handlers, case by case *)

Section HandlerFacts.
Context {E : Type} (ext : Collaborators E).

Lemma sentiment_loop_spec paragraphs :
  forall results w,
  exists items w',
    sentiment_loop ext paragraphs results w = (Ok (results ++ items), w') /\
    stats w' = stats w /\
    analysis_results w' = analysis_results w /\
    map full_paragraph items = paragraphs /\
    journal w' =
      journal w ++ map (fun p => Classify (slice_to 512 p)) paragraphs.
Proof.
  induction paragraphs as [|para more IH]; intros results w.
  - exists [], w. cbn. rewrite !app_nil_r. auto.
  - cbn [sentiment_loop]. unfold_service.
    destruct (sentiment_analyzer ext (slice_to 512 para) (env w))
      as [[c | msg] e'] eqn:Hcall.
    all: match goal with
         | |- context [sentiment_loop _ _ (?acc ++ [?item]) ?w1] =>
             destruct (IH (acc ++ [item]) w1)
               as (items & w' & Hrun & Hs & Hc & Hp & Hj);
             exists (item :: items), w'
         end.
    all: rewrite Hrun, <- app_assoc; cbn in *.
    all: split_and!; try assumption; try congruence.
    all: rewrite Hj, <- app_assoc; reflexivity.
Qed.

Lemma analyze_accepted text ml w a ri st w' :
  analyze_text ext (request text ml) w = (respond (AnalyzeBody a ri st), w') ->
  exists sentences,
    char_count a = len text /\
    word_count a = count_words text /\
    (truthy (strip text) = false -> sentence_count a = 0 /\ sentences = []) /\
    avg_word_length a =
      average (sum (map len (findall false word_regex text)))
        (len (findall false word_regex text)) /\
    avg_sentence_length a =
      average (sum (map count_words sentences)) (len sentences) /\
    ri = readability (avg_sentence_length a) (sentence_count a) /\
    positive_paragraphs a = count_label "POSITIVE" (sentiment_results a) /\
    negative_paragraphs a = count_label "NEGATIVE" (sentiment_results a) /\
    overall_sentiment a =
      overall (positive_paragraphs a) (negative_paragraphs a) /\
    map full_paragraph (sentiment_results a) =
      List.filter valid_paragraph (split_paragraphs text) /\
    st = stats w' /\
    stats w' = bump_words (count_words text) (stats w) /\
    analysis_results w' = <[slice_to 100 text := a]> (analysis_results w).
Proof.
  unfold analyze_text, request. cbn [req_text]. unfold_service.
  destruct (truthy (strip text)) eqn:Hstrip.
  - destruct (sent_tokenize ext text (env w)) as [[tokens | msg] e1];
      cbn; [| discriminate].
    destruct (sent_tokenize ext text e1) as [[sentences | msg] e2];
      cbn; [| discriminate].
    match goal with
    | |- context [sentiment_loop _ ?ps [] ?w1] =>
        destruct (sentiment_loop_spec ps [] w1)
          as (items & w2 & Hrun & Hs & Hc & Hp & _)
    end.
    rewrite Hrun. cbn in *. intros H. inversion H; subst; clear H.
    exists sentences. cbn. rewrite Hs, Hc.
    split_and!; try reflexivity; try assumption. discriminate.
  - cbn.
    match goal with
    | |- context [sentiment_loop _ ?ps [] ?w1] =>
        destruct (sentiment_loop_spec ps [] w1)
          as (items & w2 & Hrun & Hs & Hc & Hp & _)
    end.
    rewrite Hrun. cbn in *. intros H. inversion H; subst; clear H.
    exists []. cbn. rewrite Hs, Hc.
    split_and!; try reflexivity; try assumption. auto.
Qed.
End HandlerFacts.

(** ** Facts on strings, counts and thresholds *)

Lemma Qltb_lt x y : Qltb x y = true <-> (x < y)%Q.
Proof.
  unfold Qltb. rewrite Qlt_alt. destruct (x ?= y)%Q; split; congruence.
Qed.

Lemma Qltb_nlt x y : Qltb x y = false <-> ~ (x < y)%Q.
Proof.
  rewrite <- Qltb_lt. destruct (Qltb x y); split; congruence.
Qed.

Lemma lstrip_whitespace s : whitespace s -> lstrip s = [].
Proof.
  induction 1 as [|c s Hc _ IH]; simpl; [reflexivity |].
  rewrite Hc. exact IH.
Qed.

Lemma strip_whitespace s : whitespace s -> strip s = [].
Proof.
  intros H. unfold strip, rstrip. rewrite (lstrip_whitespace s H). reflexivity.
Qed.

Lemma findall_whitespace s : whitespace s -> findall false word_regex s = [].
Proof.
  intros H. unfold findall, finditer.
  assert (Hlen : length (finditer_from false word_regex None s 0) = 0%nat).
  { rewrite finditer_words_count; [| lia | constructor | lia].
    apply count_runs_whitespace. assumption. }
  destruct (finditer_from false word_regex None s 0); [reflexivity |].
  discriminate Hlen.
Qed.

Lemma split_from_pieces (P : ascii -> Prop) n :
  forall s cur,
    (length s <= n)%nat -> Forall P s -> Forall P cur ->
    Forall (Forall P) (split_from cur s).
Proof.
  induction n as [|n IH]; intros s cur Hn Hs Hcur.
  - destruct s; [| simpl in Hn; lia].
    simpl. repeat constructor. apply Forall_rev. assumption.
  - destruct s as [|c t]; simpl.
    + repeat constructor. apply Forall_rev. assumption.
    + inversion Hs as [|? ? Hc Ht]; subst.
      destruct t as [|d u].
      * apply IH; [simpl; lia | constructor | constructor; assumption].
      * inversion Ht as [|? ? Hd Hu]; subst. simpl in Hn.
        destruct ((code c =? 10)%N && (code d =? 10)%N).
        -- constructor; [apply Forall_rev; assumption |].
           apply IH; [lia | assumption | constructor].
        -- apply IH; [simpl; lia | assumption | constructor; assumption].
Qed.

Lemma no_valid_paragraph s :
  whitespace s -> List.filter valid_paragraph (split_paragraphs s) = [].
Proof.
  intros H.
  assert (Hall : Forall whitespace (split_paragraphs s)).
  { apply (split_from_pieces _ (length s)); [lia | assumption | constructor]. }
  induction Hall as [|p ps Hp _ IH]; simpl; [reflexivity |].
  unfold valid_paragraph at 1. rewrite (strip_whitespace p Hp). simpl. exact IH.
Qed.

Lemma valid_paragraph_long p :
  valid_paragraph p = (3 <? len (strip p)).
Proof.
  unfold valid_paragraph, len. destruct (strip p); reflexivity.
Qed.

Lemma count_label_from l results n :
  fold_left (fun n item => if String.eqb (label item) l then n + 1 else n)
    results n = n + Z.of_nat (labelled l results).
Proof.
  unfold labelled. revert n.
  induction results as [|item results IH]; intros n; simpl; [lia |].
  rewrite IH, filter_cons.
  destruct (String.eqb_spec (label item) l) as [Heq | Hne].
  - rewrite decide_True by assumption. simpl. lia.
  - rewrite decide_False by assumption. lia.
Qed.

Lemma count_label_labelled l results :
  count_label l results = Z.of_nat (labelled l results).
Proof. unfold count_label. rewrite count_label_from. lia. Qed.

(** ** /analyze *)

Section Analyze.
Context {E : Type} (ext : Collaborators E).

(** C3. In an accepted /analyze request the readability issues hold
    "long_sentences" exactly when the average sentence length is above 25,
    "short_sentences" exactly when it is below 10 with more than 3
    sentences and the first test did not fire, and nothing otherwise; so
    at most one issue is reported and the long one has priority. *)
Theorem C3_readability_issues text ml w a ri st w' :
  analyze_text ext (request text ml) w = (respond (AnalyzeBody a ri st), w') ->
  (has_issue "long_sentences" ri <-> (25 < avg_sentence_length a)%Q) /\
  (has_issue "short_sentences" ri <->
     (avg_sentence_length a < 10)%Q /\ 3 < sentence_count a /\
     ~ (25 < avg_sentence_length a)%Q) /\
  (ri = [] <->
     ~ (25 < avg_sentence_length a)%Q /\
     ~ ((avg_sentence_length a < 10)%Q /\ 3 < sentence_count a)) /\
  (length ri <= 1)%nat.
Proof.
  intros Hrun.
  destruct (analyze_accepted ext _ _ _ _ _ _ _ Hrun)
    as (sentences & _ & _ & _ & _ & _ & Hri & _).
  subst ri. unfold readability, has_issue.
  destruct (Qltb 25 (avg_sentence_length a)) eqn:Hlong.
  - apply Qltb_lt in Hlong.
    split_and!; [split | split | split | simpl; lia].
    + intros _. exact Hlong.
    + intros _. exists long_issue. split; [apply list_elem_of_here | reflexivity].
    + intros (i & Hi & Hname). apply list_elem_of_singleton in Hi. subst i.
      discriminate Hname.
    + intros (_ & _ & Hn). contradiction.
    + discriminate.
    + intros (Hn & _). contradiction.
  - apply Qltb_nlt in Hlong.
    destruct (Qltb (avg_sentence_length a) 10) eqn:Hshort;
      [destruct (3 <? sentence_count a) eqn:Hcount |]; cbn [andb].
    + apply Qltb_lt in Hshort. apply Z.ltb_lt in Hcount.
      split_and!; [split | split | split | simpl; lia].
      * intros (i & Hi & Hname). apply list_elem_of_singleton in Hi. subst i.
        discriminate Hname.
      * intros H. contradiction.
      * intros _. auto.
      * intros _. exists short_issue.
        split; [apply list_elem_of_here | reflexivity].
      * discriminate.
      * intros (_ & Hn). exfalso. apply Hn. auto.
    + apply Z.ltb_ge in Hcount.
      split_and!; [split | split | split | simpl; lia].
      * intros (i & Hi & _). apply elem_of_nil in Hi. contradiction.
      * intros H. contradiction.
      * intros (i & Hi & _). apply elem_of_nil in Hi. contradiction.
      * intros (_ & Hc & _). lia.
      * intros _. split; [assumption | intros (_ & Hc); lia].
      * reflexivity.
    + apply Qltb_nlt in Hshort.
      split_and!; [split | split | split | simpl; lia].
      * intros (i & Hi & _). apply elem_of_nil in Hi. contradiction.
      * intros H. contradiction.
      * intros (i & Hi & _). apply elem_of_nil in Hi. contradiction.
      * intros (Hs & _). contradiction.
      * intros _. split; [assumption | intros (Hs & _); contradiction].
      * reflexivity.
Qed.

(** C5. For an empty or whitespace-only text /analyze answers with
    sentence_count 0 and both averages 0 (the denominators are floored at
    1), no paragraph is valid, no sentiment result is produced, and neither
    the segmenter nor the classifier is called: the journal of calls and
    the collaborators' environment are as before. *)
Theorem C5_blank_text text ml w :
  whitespace text ->
  exists a ri st w',
    analyze_text ext (request text ml) w =
      (respond (AnalyzeBody a ri st), w') /\
    sentence_count a = 0 /\
    avg_word_length a = 0%Q /\
    avg_sentence_length a = 0%Q /\
    List.filter valid_paragraph (split_paragraphs text) = [] /\
    sentiment_results a = [] /\
    journal w' = journal w /\
    env w' = env w.
Proof.
  intros Hblank.
  unfold analyze_text, request. cbn [req_text]. unfold_service.
  rewrite (strip_whitespace text Hblank). cbn [truthy].
  rewrite (no_valid_paragraph text Hblank).
  rewrite (findall_whitespace text Hblank).
  cbn. do 4 eexists. split_and!; reflexivity.
Qed.

(** C7. The overall sentiment of an accepted /analyze request is "Mostly
    Positive" exactly when more results are labelled POSITIVE than
    NEGATIVE, "Mostly Negative" exactly when more are labelled NEGATIVE,
    and "Neutral" exactly when the two counts are equal. *)
Theorem C7_overall_sentiment text ml w a ri st w' :
  analyze_text ext (request text ml) w = (respond (AnalyzeBody a ri st), w') ->
  let positive := labelled "POSITIVE" (sentiment_results a) in
  let negative := labelled "NEGATIVE" (sentiment_results a) in
  (overall_sentiment a = "Mostly Positive"%string <-> (negative < positive)%nat) /\
  (overall_sentiment a = "Mostly Negative"%string <-> (positive < negative)%nat) /\
  (overall_sentiment a = "Neutral"%string <-> positive = negative).
Proof.
  intros Hrun positive negative.
  destruct (analyze_accepted ext _ _ _ _ _ _ _ Hrun)
    as (sentences & _ & _ & _ & _ & _ & _ & Hpos & Hneg & Hall & _).
  rewrite Hall, Hpos, Hneg, !count_label_labelled.
  fold positive negative. unfold overall.
  destruct (Z.ltb_spec (Z.of_nat negative) (Z.of_nat positive)) as [H1 | H1];
    [| destruct (Z.ltb_spec (Z.of_nat positive) (Z.of_nat negative))
         as [H2 | H2]].
  - split_and!; split; intros H; try discriminate H; try lia; reflexivity.
  - split_and!; split; intros H; try discriminate H; try lia; reflexivity.
  - split_and!; split; intros H; try discriminate H; try lia; reflexivity.
Qed.

(** C9. In an accepted /analyze request the sentiment results are, in
    order, the paragraphs (pieces of the text between double newlines)
    whose stripped text is longer than 3: every result belongs to such a
    paragraph, a paragraph with at most 3 characters after stripping has
    no result, and the positive and negative tallies count results only. *)
Theorem C9_short_paragraphs_skipped text ml w a ri st w' :
  analyze_text ext (request text ml) w = (respond (AnalyzeBody a ri st), w') ->
  map full_paragraph (sentiment_results a) =
    List.filter (fun p => 3 <? len (strip p)) (split_paragraphs text) /\
  (forall item, item ∈ sentiment_results a ->
     full_paragraph item ∈ split_paragraphs text /\
     (3 < length (strip (full_paragraph item)))%nat) /\
  (forall p, (length (strip p) <= 3)%nat ->
     ~ exists item, item ∈ sentiment_results a /\ full_paragraph item = p) /\
  positive_paragraphs a = Z.of_nat (labelled "POSITIVE" (sentiment_results a)) /\
  negative_paragraphs a = Z.of_nat (labelled "NEGATIVE" (sentiment_results a)).
Proof.
  intros Hrun.
  destruct (analyze_accepted ext _ _ _ _ _ _ _ Hrun)
    as (sentences & _ & _ & _ & _ & _ & _ & Hpos & Hneg & _ & Hmap & _).
  assert (Hmap' : map full_paragraph (sentiment_results a) =
                  List.filter (fun p => 3 <? len (strip p))
                    (split_paragraphs text)).
  { rewrite Hmap. apply List.filter_ext. intros p.
    apply valid_paragraph_long. }
  assert (Hin : forall item, item ∈ sentiment_results a ->
            full_paragraph item ∈ split_paragraphs text /\
            (3 < length (strip (full_paragraph item)))%nat).
  { intros item Hitem.
    assert (Hp : In (full_paragraph item)
                   (map full_paragraph (sentiment_results a))).
    { apply in_map. apply list_elem_of_In. assumption. }
    rewrite Hmap' in Hp. apply filter_In in Hp as [Hp Hlen].
    apply Z.ltb_lt in Hlen. unfold len in Hlen.
    split; [apply list_elem_of_In; assumption | lia]. }
  split_and!; try assumption.
  - intros p Hshort (item & Hitem & Hp). subst p.
    destruct (Hin item Hitem) as [_ Hlong]. lia.
  - rewrite Hpos. apply count_label_labelled.
  - rewrite Hneg. apply count_label_labelled.
Qed.
End Analyze.

(** ** What the patterns match *)

Lemma eat_spec ic w : forall prev s p t,
  eat ic w prev s = Some (p, t) ->
  exists w', s = w' ++ t /\ Forall2 (fun a b => same_char ic a b = true) w w'.
Proof.
  induction w as [|a w IH]; intros prev s p t; simpl.
  - intros [= <- <-]. exists []. split; [reflexivity | constructor].
  - destruct s as [|b s]; [discriminate |].
    destruct (same_char ic a b) eqn:Hab; [| discriminate].
    intros H. destruct (IH _ _ _ _ H) as (w' & -> & Hw).
    exists (b :: w'). split; [reflexivity | constructor; assumption].
Qed.

Lemma star_sound {A : Type} k (cont : cursor -> option A) s : forall prev g x,
  star k cont prev s g = Some x ->
  exists more t p,
    s = more ++ t /\ Forall (fun y => in_class k y = true) more /\
    cont (Cursor p t g) = Some x.
Proof.
  induction s as [|c s IH]; intros prev g x; cbn [star].
  - intros H. exists [], [], prev. split_and!; [reflexivity | constructor | exact H].
  - destruct (in_class k c) eqn:Hc.
    + destruct (star k cont (Some c) s g) as [r |] eqn:Hstar.
      * intros [= ->]. destruct (IH _ _ _ Hstar) as (more & t & p & -> & Hm & Hk).
        exists (c :: more), t, p. split_and!; [reflexivity | constructor; assumption | exact Hk].
      * intros H. exists [], (c :: s), prev.
        split_and!; [reflexivity | constructor | exact H].
    + intros H. exists [], (c :: s), prev.
      split_and!; [reflexivity | constructor | exact H].
Qed.
Lemma run_sound {A : Type} ic r : forall (cont : cursor -> option A) c x,
  run ic r cont c = Some x ->
  exists c', den ic r c c' /\ cont c' = Some x.
Proof.
  induction r as [| a | k | | r1 IH1 r2 IH2 | r1 IH1 r2 IH2 | k | r1 IH1 |];
    intros cont c x; cbn [run den].
  - intros H. exists c. auto.
  - destruct (rest c) as [|y t] eqn:Hrest; [discriminate |].
    destruct (same_char ic a y) eqn:Hy; [| discriminate].
    intros H. eexists. split; [| exact H]. exists y. cbn. auto.
  - destruct (rest c) as [|y t] eqn:Hrest; [discriminate |].
    destruct (in_class k y) eqn:Hy; [| discriminate].
    intros H. eexists. split; [| exact H]. exists y. cbn. auto.
  - destruct (at_boundary c) eqn:Hb; [| discriminate].
    intros H. exists c. auto.
  - intros H. destruct (IH1 _ _ _ H) as (m & Hm & H2).
    destruct (IH2 _ _ _ H2) as (c' & Hc' & Hk).
    exists c'. split; [exists m; auto | exact Hk].
  - destruct (run ic r1 cont c) as [y |] eqn:H1.
    + intros [= ->]. destruct (IH1 _ _ _ H1) as (c' & Hc' & Hk).
      exists c'. auto.
    + intros H. destruct (IH2 _ _ _ H) as (c' & Hc' & Hk). exists c'. auto.
  - destruct (rest c) as [|y t] eqn:Hrest; [discriminate |].
    destruct (in_class k y) eqn:Hy; [| discriminate].
    intros H. destruct (star_sound _ _ _ _ _ _ H) as (more & u & p & -> & Hm & Hk).
    eexists. split; [| exact Hk]. exists y, more. cbn. auto.
  - intros H. destruct (IH1 _ _ _ H) as (m & Hm & Hk).
    eexists. split; [| exact Hk]. exists m. cbn. auto.
  - destruct (grp c) as [w |] eqn:Hg; [| discriminate].
    destruct (eat ic w (before c) (rest c)) as [[p t] |] eqn:He; [| discriminate].
    intros H. destruct (eat_spec _ _ _ _ _ _ He) as (w' & Hw' & Hsame).
    eexists. split; [| exact H]. exists w, w'. cbn. auto.
Qed.

Lemma den_consumes ic r : forall c c',
  den ic r c c' -> exists u, rest c = u ++ rest c'.
Proof.
  induction r as [| a | k | | r1 IH1 r2 IH2 | r1 IH1 r2 IH2 | k | r1 IH1 |];
    intros c c'; cbn [den].
  - intros ->. exists []. reflexivity.
  - intros (x & Hx & _). exists [x]. exact Hx.
  - intros (x & Hx & _). exists [x]. exact Hx.
  - intros (_ & ->). exists []. reflexivity.
  - intros (m & H1 & H2). destruct (IH1 _ _ H1) as (u & Hu).
    destruct (IH2 _ _ H2) as (v & Hv). exists (u ++ v).
    rewrite Hu, Hv, app_assoc. reflexivity.
  - intros [H | H]; [apply (IH1 _ _ H) | apply (IH2 _ _ H)].
  - intros (x & more & Hx & _). exists (x :: more). exact Hx.
  - intros (m & H1 & Hr & _). destruct (IH1 _ _ H1) as (u & Hu).
    exists u. rewrite Hr. exact Hu.
  - intros (w & w' & _ & Hw & _). exists w'. exact Hw.
Qed.

Lemma match_at_den ic r prev s m :
  match_at ic r prev s = Some m ->
  exists c',
    den ic r (Cursor prev s None) c' /\
    s = group0 m ++ rest c' /\ group1 m = grp c'.
Proof.
  unfold match_at. intros H.
  destruct (run_sound _ _ _ _ _ H) as (c' & Hden & Hm).
  injection Hm as <-. exists c'. split; [exact Hden |].
  destruct (den_consumes _ _ _ _ Hden) as (u & Hu). cbn in Hu. cbn.
  split; [| reflexivity].
  rewrite Hu at 2 3. rewrite length_app.
  rewrite take_app_length' by lia. exact Hu.
Qed.

Lemma same_chars_word w w' :
  Forall2 (fun a b => same_char true a b = true) w w' -> same_word w w'.
Proof.
  unfold same_word. induction 1 as [|a b w w' Hab _ IH]; simpl; [reflexivity |].
  unfold same_char in Hab. apply bool_decide_eq_true in Hab. congruence.
Qed.

Lemma lit_den w : forall c c',
  den true (lit w) c c' ->
  exists w', rest c = w' ++ rest c' /\ same_word w' w /\ grp c' = grp c.
Proof.
  unfold same_word.
  induction w as [|a w IH]; intros c c'.
  - cbn. intros ->. exists []. auto.
  - destruct w as [|b w].
    + cbn. intros (x & Hx & Hsame & Hg). exists [x].
      apply bool_decide_eq_true in Hsame. cbn. split_and!; congruence.
    + cbn [lit den]. intros (m & (x & Hx & Hsame & Hg) & Hrest).
      destruct (IH _ _ Hrest) as (w' & Hw' & Hlow & Hg').
      exists (x :: w'). apply bool_decide_eq_true in Hsame.
      split_and!; [rewrite Hx, Hw'; reflexivity | cbn in *; congruence | congruence].
Qed.

Lemma alt_den ic rs : forall r c c',
  den ic (alt r rs) c c' -> exists r', r' ∈ r :: rs /\ den ic r' c c'.
Proof.
  induction rs as [|r1 rs IH]; intros r c c'; cbn [alt den].
  - intros H. exists r. split; [apply list_elem_of_here | exact H].
  - intros [H | H].
    + exists r. split; [apply list_elem_of_here | exact H].
    + destruct (IH _ _ _ H) as (r' & Hin & Hr').
      exists r'. split; [apply list_elem_of_further; exact Hin | exact Hr'].
Qed.

Lemma one_of_den w ws c c' :
  den true (one_of w ws) c c' ->
  exists a w',
    a ∈ w :: ws /\ rest c = w' ++ rest c' /\ same_word w' (txt a) /\
    grp c' = grp c.
Proof.
  unfold one_of. intros H.
  destruct (alt_den _ _ _ _ _ H) as (r' & Hin & Hr').
  change (word w :: map word ws) with (map word (w :: ws)) in Hin.
  apply list_elem_of_fmap in Hin as (a & -> & Ha).
  destruct (lit_den _ _ _ Hr') as (w' & Hw' & Hsame & Hg).
  exists a, w'. auto.
Qed.

Lemma take_run (x : ascii) (more tail : str) :
  take (length (x :: more ++ tail) - length tail) (x :: more ++ tail) =
  x :: more.
Proof.
  change (x :: more ++ tail) with ((x :: more) ++ tail).
  rewrite take_app_length'; [reflexivity |]. rewrite length_app. lia.
Qed.

Lemma repeated_match_shape prev s m :
  match_at true repeated_word_regex prev s = Some m -> repeated_pair m.
Proof.
  intros H. destruct (match_at_den _ _ _ _ _ H) as (c' & Hden & Hs & Hg).
  clear H. unfold repeated_word_regex in Hden. cbn [den] in Hden.
  destruct Hden as (c1 & (_ & ->) & c2 & (c3 & Hw & Hr2 & Hg2) & c4 & Hsp
                    & c5 & Href & (_ & ->)).
  destruct Hw as (x & more & Hx & Hxw & Hmore & _).
  destruct Hsp as (y & sp & Hy & Hys & Hsp & Hg4).
  destruct Href as (w & w' & Hgw & Hw' & Hsame & Hg5).
  cbn [rest grp] in *.
  rewrite Hx, take_run in Hg2.
  assert (Hw : w = x :: more) by congruence. subst w.
  exists (x :: more), (y :: sp), w'.
  split_and!.
  - apply (app_inv_tail (rest c5)). rewrite <- Hs, Hx, <- Hr2, Hy, Hw'.
    rewrite <- !app_assoc. reflexivity.
  - congruence.
  - discriminate.
  - constructor; assumption.
  - discriminate.
  - constructor; assumption.
  - apply same_chars_word. exact Hsame.
Qed.

Lemma passive_match_shape prev s m :
  match_at true passive_regex prev s = Some m -> passive_phrase m.
Proof.
  intros H. destruct (match_at_den _ _ _ _ _ H) as (c' & Hden & Hs & Hg).
  clear H. unfold passive_regex in Hden. cbn [den] in Hden.
  destruct Hden as (c1 & (_ & ->) & c2 & Haux & c3 & Hsp & c4
                    & (c5 & Hverb & Hr4 & Hg4) & (_ & ->)).
  destruct (one_of_den _ _ _ _ Haux) as (a & aux & Ha & Haux' & Hsame & _).
  destruct Hsp as (y & sp & Hy & Hys & Hsp & _).
  cbn [rest grp] in *.
  assert (Hshape : exists v,
            rest c3 = v ++ rest c5 /\
            ((exists stem e, v = stem ++ e /\ stem <> [] /\ word_chars stem /\
                             same_word e (txt "ed")) \/
             (exists p, p ∈ irregular_participles /\ same_word v (txt p)))).
  { destruct Hverb as [(c6 & (x & more & Hx & Hxw & Hmore & _) & Hed) | Hirr].
    - destruct (lit_den _ _ _ Hed) as (e & He & Hsame_e & _).
      exists ((x :: more) ++ e). split.
      + rewrite Hx, He, <- app_assoc. reflexivity.
      + left. exists (x :: more), e.
        split_and!; [reflexivity | discriminate | constructor; assumption
                    | exact Hsame_e].
    - destruct (one_of_den _ _ _ _ Hirr) as (p & v & Hp & Hv & Hsame_v & _).
      exists v. split; [exact Hv |]. right. exists p. auto. }
  destruct Hshape as (v & Hv & Hkind).
  exists aux, (y :: sp), v.
  split_and!.
  - apply (app_inv_tail (rest c4)). rewrite <- Hs, Haux', Hy, Hv, Hr4.
    rewrite <- !app_assoc. reflexivity.
  - rewrite Hg, Hg4, Hv, length_app.
    rewrite take_app_length' by lia. reflexivity.
  - exists a. auto.
  - discriminate.
  - constructor; assumption.
  - exact Hkind.
Qed.

Lemma finditer_from_matches ic r m s : forall prev skip,
  m ∈ finditer_from ic r prev s skip ->
  exists a b p, s = a ++ b /\ match_at ic r p b = Some m.
Proof.
  induction s as [|c t IH]; intros prev skip; cbn [finditer_from].
  - destruct skip; [| intros H; apply elem_of_nil in H; contradiction].
    destruct (match_at ic r prev []) as [m' |] eqn:Hm;
      [| intros H; apply elem_of_nil in H; contradiction].
    intros H. apply list_elem_of_singleton in H. subst m'.
    exists [], [], prev. auto.
  - destruct skip as [|n].
    + destruct (match_at ic r prev (c :: t)) as [m' |] eqn:Hm.
      * intros H. apply elem_of_cons in H as [-> | H].
        -- exists [], (c :: t), prev. auto.
        -- destruct (IH _ _ H) as (a & b & p & -> & Hb).
           exists (c :: a), b, p. auto.
      * intros H. destruct (IH _ _ H) as (a & b & p & -> & Hb).
        exists (c :: a), b, p. auto.
    + intros H. destruct (IH _ _ H) as (a & b & p & -> & Hb).
      exists (c :: a), b, p. auto.
Qed.

Lemma match_is_prefix ic r prev s m :
  match_at ic r prev s = Some m -> exists tail, s = group0 m ++ tail.
Proof.
  intros H. destruct (match_at_den _ _ _ _ _ H) as (c' & _ & Hs & _).
  exists (rest c'). exact Hs.
Qed.

Lemma finditer_substring ic r text m :
  m ∈ finditer ic r text -> exists a b, text = a ++ group0 m ++ b.
Proof.
  intros H. destruct (finditer_from_matches _ _ _ _ _ _ H) as (a & b & p & -> & Hm).
  destruct (match_is_prefix _ _ _ _ _ Hm) as (tail & ->).
  exists a, tail. reflexivity.
Qed.

(** No match of the three patterns is empty, so [finditer] always moves
    on by the length of the match it has found. *)
Lemma matches_not_empty prev s m :
  match_at false word_regex prev s = Some m \/
  match_at true passive_regex prev s = Some m \/
  match_at true repeated_word_regex prev s = Some m ->
  group0 m <> [].
Proof.
  intros [H | [H | H]].
  - rewrite match_at_word in H. destruct s as [|x t]; [discriminate |].
    destruct (is_word_char x && negb (wordy prev)); [| discriminate].
    injection H as <-. destruct (run_end_split x t) as (pre & Ht & _).
    remember (run_end x t).2 as r eqn:Hr. clear Hr. subst t.
    cbn [group0].
    change (S (length (pre ++ r))) with (length (x :: pre ++ r)).
    rewrite take_run. discriminate.
  - destruct (passive_match_shape _ _ _ H)
      as (aux & sp & v & -> & _ & _ & Hsp & _).
    destruct aux; [destruct sp; [contradiction | discriminate] | discriminate].
  - destruct (repeated_match_shape _ _ _ H) as (w & sp & w' & -> & _ & Hw & _).
    destruct w; [contradiction | discriminate].
Qed.

(** ** /suggest *)

Lemma is_prefix_spec p s : is_prefix p s = true <-> exists b, s = p ++ b.
Proof.
  revert s. induction p as [|a p IH]; intros s; simpl.
  - split; [intros _; exists s; reflexivity | reflexivity].
  - destruct s as [|c s].
    + split; [discriminate | intros (b & Hb); discriminate Hb].
    + destruct (decide (a = c)) as [-> | Hne].
      * rewrite IH. split; intros (b & Hb); exists b; simpl in *; congruence.
      * split; [discriminate | intros (b & Hb)]. simpl in Hb. congruence.
Qed.

Lemma contains_spec s needle :
  contains s needle = true <-> exists a b, s = a ++ needle ++ b.
Proof.
  induction s as [|c s IH]; simpl.
  - rewrite orb_false_r, is_prefix_spec. split.
    + intros (b & Hb). exists [], b. exact Hb.
    + intros (a & b & Hab). destruct a; [exists b; exact Hab | discriminate Hab].
  - rewrite orb_true_iff, is_prefix_spec, IH. split.
    + intros [(b & Hb) | (a & b & Hab)].
      * exists [], b. exact Hb.
      * exists (c :: a), b. simpl. congruence.
    + intros (a & b & Hab). destruct a as [|c' a].
      * left. exists b. exact Hab.
      * right. exists a, b. simpl in Hab. congruence.
Qed.

Lemma first_containing_some needle sentences s :
  first_containing needle sentences = Some s <->
  exists i,
    sentences !! i = Some s /\ contains s needle = true /\
    forall j s', (j < i)%nat -> sentences !! j = Some s' ->
                 contains s' needle = false.
Proof.
  induction sentences as [|x more IH]; simpl.
  - split; [discriminate | intros (i & Hi & _); discriminate Hi].
  - destruct (contains x needle) eqn:Hx.
    + split.
      * intros [= <-]. exists 0%nat. split_and!; [reflexivity | assumption |].
        intros j s' Hj. lia.
      * intros (i & Hi & Hs & Hfirst). destruct i as [|i].
        -- simpl in Hi. congruence.
        -- specialize (Hfirst 0%nat x). simpl in Hfirst.
           rewrite Hfirst in Hx; [discriminate | lia | reflexivity].
    + rewrite IH. split.
      * intros (i & Hi & Hs & Hfirst). exists (S i).
        split_and!; [exact Hi | exact Hs |].
        intros [|j] s' Hj Hs'; simpl in Hs'.
        -- congruence.
        -- apply (Hfirst j); [lia | assumption].
      * intros (i & Hi & Hs & Hfirst). destruct i as [|i].
        -- simpl in Hi. congruence.
        -- exists i. split_and!; [exact Hi | exact Hs |].
           intros j s' Hj Hs'. apply (Hfirst (S j)); [lia | exact Hs'].
Qed.

Lemma first_containing_none needle sentences :
  first_containing needle sentences = None <->
  forall s, s ∈ sentences -> contains s needle = false.
Proof.
  induction sentences as [|x more IH]; simpl.
  - split; [| reflexivity]. intros _ s Hs. apply elem_of_nil in Hs. contradiction.
  - destruct (contains x needle) eqn:Hx.
    + split; [discriminate |]. intros H.
      rewrite (H x) in Hx; [discriminate | apply list_elem_of_here].
    + rewrite IH. split.
      * intros H s Hs. apply elem_of_cons in Hs as [-> | Hs]; auto.
      * intros H s Hs. apply H. apply list_elem_of_further. assumption.
Qed.

Lemma fold_attach {M S X : Type} (g : M -> option S) (h : S -> M -> X) ms :
  forall acc,
    fold_left
      (fun acc m =>
         match g m with
         | Some s => acc ++ [h s m]
         | None => acc
         end) ms acc =
    acc ++ omap (fun m => (fun s => h s m) <$> g m) ms.
Proof.
  induction ms as [|m ms IH]; intros acc; simpl.
  - rewrite app_nil_r. reflexivity.
  - rewrite IH. destruct (g m); simpl; [| reflexivity].
    rewrite <- app_assoc. reflexivity.
Qed.

Lemma general_spec long_count passive_count words :
  let gs := general long_count passive_count words in
  (advice_shorten ∈ gs <-> 2 < long_count) /\
  (advice_active ∈ gs <-> 2 < passive_count) /\
  (advice_expand ∈ gs <-> words < 100) /\
  (advice_sections ∈ gs <-> 1000 < words) /\
  (forall x, x ∈ gs ->
     x ∈ [advice_shorten; advice_active; advice_expand; advice_sections]) /\
  NoDup gs /\
  ~ (advice_expand ∈ gs /\ advice_sections ∈ gs).
Proof.
  unfold general.
  destruct (Z.ltb_spec 2 long_count), (Z.ltb_spec 2 passive_count),
    (Z.ltb_spec words 100), (Z.ltb_spec 1000 words);
    cbn [app]; try lia.
  all: split_and!;
    [ advice_iff | advice_iff | advice_iff | advice_iff
    | intros x Hx;
      repeat (apply elem_of_cons in Hx as [-> | Hx]; [member |]);
      apply elem_of_nil in Hx; contradiction
    | apply (bool_decide_unpack _); vm_compute; exact I
    | intros [Hx Hy]; first [no_member Hx | no_member Hy] ].
Qed.

Section Suggest.
Context {E : Type} (ext : Collaborators E).

Lemma suggest_cases text ml w :
  suggest_improvements ext (request text ml) w =
  match sent_tokenize ext text (env w) with
  | (Ok sentences, e') =>
      let sg :=
        {| long_sentences := scan_long sentences;
           passive_voice := scan_passive text sentences;
           repeated_words := scan_repeated text sentences;
           general_suggestions :=
             general (len (scan_long sentences))
               (len (scan_passive text sentences)) (count_words text) |} in
      let n :=
        len (long_sentences sg) + len (passive_voice sg)
        + len (repeated_words sg) + len (general_suggestions sg) in
      let s' := bump_suggestions n (bump_words (count_words text) (stats w)) in
      (respond (SuggestBody sg n s'), with_call (Segment text) e' s' w)
  | (Err msg, e') =>
      ({| http_status := 500; body := ErrorBody msg |},
       with_call (Segment text) e' (bump_words (count_words text) (stats w)) w)
  end.
Proof.
  unfold suggest_improvements, request. cbn [req_text]. unfold_service.
  cbn [env stats analysis_results journal].
  destruct (sent_tokenize ext text (env w)) as [[sentences | msg] e'];
    reflexivity.
Qed.

(** C2. In an accepted /suggest request the returned count is the sum of
    the lengths of the four lists and is what is added to
    suggestions_made; the general suggestions are the advice to shorten
    exactly when more than 2 long sentences were found, the advice on
    active voice exactly when more than 2 passive occurrences were found,
    the advice to expand exactly when the word count is below 100 and the
    advice on sections exactly when it is above 1000, nothing else and
    nothing twice; the last two never come together. *)
Theorem C2_suggestion_count text ml w sg n st w' :
  suggest_improvements ext (request text ml) w =
    (respond (SuggestBody sg n st), w') ->
  n = len (long_sentences sg) + len (passive_voice sg)
      + len (repeated_words sg) + len (general_suggestions sg) /\
  suggestions_made (stats w') = suggestions_made (stats w) + n /\
  st = stats w' /\
  (advice_shorten ∈ general_suggestions sg <-> 2 < len (long_sentences sg)) /\
  (advice_active ∈ general_suggestions sg <-> 2 < len (passive_voice sg)) /\
  (advice_expand ∈ general_suggestions sg <-> count_words text < 100) /\
  (advice_sections ∈ general_suggestions sg <-> 1000 < count_words text) /\
  (forall x, x ∈ general_suggestions sg ->
     x ∈ [advice_shorten; advice_active; advice_expand; advice_sections]) /\
  NoDup (general_suggestions sg) /\
  ~ (advice_expand ∈ general_suggestions sg /\
     advice_sections ∈ general_suggestions sg).
Proof.
  rewrite suggest_cases.
  destruct (sent_tokenize ext text (env w)) as [[sentences | msg] e'];
    [| discriminate].
  cbv zeta. intros H. inversion H; subst; clear H. cbn [long_sentences
    passive_voice repeated_words general_suggestions stats with_call
    bump_suggestions bump_words suggestions_made].
  split_and!; [reflexivity | reflexivity | reflexivity | ..];
    apply general_spec.
Qed.

(** C4. In an accepted /suggest request the matches of the passive-voice
    pattern are occurrences in the text of an auxiliary (am, is, are, was,
    were, be, been, being), whitespace and a word that ends in -ed or is in
    the irregular list, up to case; the matches of the repeated-word pattern
    are a word, whitespace and the same word up to case.  Every match of
    either pattern is attached to the first sentence of the segmentation, in
    its order, that contains the matched text as a substring; a match that
    no sentence contains leaves no entry.  For "The cat cat sat on on the
    mat" the matches are "cat cat" and "on on", and when the segmentation
    keeps each inside a sentence the repeated words reported are "cat" and
    "on". *)
Theorem C4_sentence_attachment text ml w sg n st w' :
  suggest_improvements ext (request text ml) w =
    (respond (SuggestBody sg n st), w') ->
  exists sentences e',
    sent_tokenize ext text (env w) = (Ok sentences, e') /\
    passive_voice sg =
      attach sentences
        (fun s m => {| pv_sentence := s; pv_match := group0 m |})
        (finditer true passive_regex text) /\
    repeated_words sg =
      attach sentences
        (fun s m => {| rw_sentence := s; repeated_word := group1 m |})
        (finditer true repeated_word_regex text) /\
    (forall m, m ∈ finditer true passive_regex text ->
       passive_phrase m /\ exists a b, text = a ++ group0 m ++ b) /\
    (forall m, m ∈ finditer true repeated_word_regex text ->
       repeated_pair m /\ exists a b, text = a ++ group0 m ++ b) /\
    (forall needle s,
       first_containing needle sentences = Some s <->
       exists i,
         sentences !! i = Some s /\
         (exists a b, s = a ++ needle ++ b) /\
         forall j s', (j < i)%nat -> sentences !! j = Some s' ->
                      ~ exists a b, s' = a ++ needle ++ b) /\
    (forall needle,
       first_containing needle sentences = None <->
       forall s, s ∈ sentences -> ~ exists a b, s = a ++ needle ++ b) /\
    (text = txt "The cat cat sat on on the mat" ->
     finditer true repeated_word_regex text =
       [Rematch (txt "cat cat") (Some (txt "cat"));
        Rematch (txt "on on") (Some (txt "on"))] /\
     ((exists s, s ∈ sentences /\ contains s (txt "cat cat") = true) ->
      (exists s, s ∈ sentences /\ contains s (txt "on on") = true) ->
      exists s1 s2,
        repeated_words sg =
          [{| rw_sentence := s1; repeated_word := Some (txt "cat") |};
           {| rw_sentence := s2; repeated_word := Some (txt "on") |}])).
Proof.
  rewrite suggest_cases.
  destruct (sent_tokenize ext text (env w)) as [[sentences | msg] e'];
    [| discriminate].
  cbv zeta. intros H. inversion H; subst; clear H.
  exists sentences, e'. cbn [passive_voice repeated_words].
  assert (Hrep : scan_repeated text sentences =
            attach sentences
              (fun s m => {| rw_sentence := s; repeated_word := group1 m |})
              (finditer true repeated_word_regex text)).
  { unfold scan_repeated, attach.
    rewrite (fold_attach (fun m => first_containing (group0 m) sentences)
               (fun s m => {| rw_sentence := s; repeated_word := group1 m |})).
    reflexivity. }
  split_and!.
  - reflexivity.
  - unfold scan_passive, attach.
    rewrite (fold_attach (fun m => first_containing (group0 m) sentences)
               (fun s m => {| pv_sentence := s; pv_match := group0 m |})).
    reflexivity.
  - exact Hrep.
  - intros m Hm. split; [| eapply finditer_substring; exact Hm].
    destruct (finditer_from_matches _ _ _ _ _ _ Hm) as (a & b & p & _ & Hb).
    eapply passive_match_shape. exact Hb.
  - intros m Hm. split; [| eapply finditer_substring; exact Hm].
    destruct (finditer_from_matches _ _ _ _ _ _ Hm) as (a & b & p & _ & Hb).
    eapply repeated_match_shape. exact Hb.
  - intros needle s. rewrite first_containing_some.
    split; intros (i & Hi & Hs & Hfirst); exists i; split_and!; try assumption.
    + apply contains_spec. assumption.
    + intros j s' Hj Hs' Hsub. apply contains_spec in Hsub.
      rewrite (Hfirst j s' Hj Hs') in Hsub. discriminate.
    + apply contains_spec. assumption.
    + intros j s' Hj Hs'. destruct (contains s' needle) eqn:Hc; [| reflexivity].
      exfalso. apply (Hfirst j s' Hj Hs'). apply contains_spec. assumption.
  - intros needle. rewrite first_containing_none.
    split; intros Hall s Hs.
    + intros Hsub. apply contains_spec in Hsub.
      rewrite (Hall s Hs) in Hsub. discriminate.
    + destruct (contains s needle) eqn:Hc; [| reflexivity].
      exfalso. apply (Hall s Hs). apply contains_spec. assumption.
  - intros ->.
    assert (Hm : finditer true repeated_word_regex
                   (txt "The cat cat sat on on the mat") =
                 [Rematch (txt "cat cat") (Some (txt "cat"));
                  Rematch (txt "on on") (Some (txt "on"))])
      by (vm_compute; reflexivity).
    split; [exact Hm |].
    intros (c1 & Hc1 & Hcat) (c2 & Hc2 & Hon).
    rewrite Hrep, Hm. unfold attach. cbn [omap list_omap group0 group1].
    destruct (first_containing (txt "cat cat") sentences) as [s1 |] eqn:H1.
    2: { apply first_containing_none with (s := c1) in H1; [| assumption].
         congruence. }
    destruct (first_containing (txt "on on") sentences) as [s2 |] eqn:H2.
    2: { apply first_containing_none with (s := c2) in H2; [| assumption].
         congruence. }
    exists s1, s2. reflexivity.
Qed.
End Suggest.

(** ** The counters *)

Section Counters.
Context {E : Type} (ext : Collaborators E).

Lemma check_grammar_cases text ml w :
  check_grammar ext (request text ml) w =
  match grammar_tool_check ext text (env w) with
  | (Ok matches, e') =>
      let results :=
        fold_left (fun acc m => acc ++ [issue_of text m]) matches [] in
      let s' :=
        {| words_checked := words_checked (stats w) + count_words text;
           grammar_errors_found :=
             grammar_errors_found (stats w) + len results;
           suggestions_made := suggestions_made (stats w) |} in
      (respond (GrammarBody results (len results) s'),
       with_call (CheckGrammar text) e' s' w)
  | (Err msg, e') =>
      ({| http_status := 500; body := ErrorBody msg |},
       with_call (CheckGrammar text) e' (bump_words (count_words text) (stats w)) w)
  end.
Proof.
  unfold check_grammar, request. cbn [req_text]. unfold_service.
  cbn [env stats analysis_results journal].
  destruct (grammar_tool_check ext text (env w)) as [[matches | msg] e'];
    reflexivity.
Qed.

Lemma complete_cases text ml w :
  let max_length := default 50 ml in
  let last_chars := if 100 <? len text then slice_last 100 text else text in
  complete_text ext (request text ml) w =
  match text_generator ext last_chars max_length (env w) with
  | (Ok full, e') =>
      let s' := bump_suggestions 1 (stats w) in
      (respond (CompleteBody
                  {| prompt := last_chars;
                     generated_text := slice_from (length last_chars) full;
                     full_text := full |} s'),
       with_call (Generate last_chars max_length) e' s' w)
  | (Err msg, e') =>
      ({| http_status := 500; body := ErrorBody msg |},
       with_call (Generate last_chars max_length) e' (stats w) w)
  end.
Proof.
  intros max_length last_chars.
  unfold complete_text, request. cbn [req_text req_max_length].
  unfold_service. fold max_length last_chars.
  destruct (text_generator ext last_chars max_length (env w))
    as [[full | msg] e']; reflexivity.
Qed.

(** What a failed /analyze leaves behind: nothing when the first
    segmentation fails, the word count when the second one does. *)
Lemma analyze_failed text ml w resp w' :
  analyze_text ext (request text ml) w = (resp, w') ->
  http_status resp = 500 ->
  (exists msg e', sent_tokenize ext text (env w) = (Err msg, e') /\
                  stats w' = stats w) \/
  (exists tokens e', sent_tokenize ext text (env w) = (Ok tokens, e') /\
                     stats w' = bump_words (count_words text) (stats w)).
Proof.
  unfold analyze_text, request. cbn [req_text]. unfold_service.
  destruct (truthy (strip text)) eqn:Hstrip.
  - destruct (sent_tokenize ext text (env w)) as [[tokens | msg] e1] eqn:H1;
      cbn [env stats analysis_results journal].
    + destruct (sent_tokenize ext text e1) as [[sentences | msg] e2].
      * match goal with
        | |- context [sentiment_loop _ ?ps [] ?w1] =>
            destruct (sentiment_loop_spec ext ps [] w1)
              as (items & w2 & Hrun & _)
        end.
        rewrite Hrun. cbn. intros [= <- <-]. discriminate.
      * intros [= <- <-] _. right. exists tokens, e1. split; reflexivity.
    + intros [= <- <-] _. left. exists msg, e1. split; reflexivity.
  - cbn [env stats analysis_results journal].
    match goal with
    | |- context [sentiment_loop _ ?ps [] ?w1] =>
        destruct (sentiment_loop_spec ext ps [] w1)
          as (items & w2 & Hrun & _)
    end.
    rewrite Hrun. cbn. intros [= <- <-]. discriminate.
Qed.

Lemma check_grammar_failed text ml w resp w' :
  check_grammar ext (request text ml) w = (resp, w') ->
  http_status resp = 500 ->
  stats w' = bump_words (count_words text) (stats w).
Proof.
  rewrite check_grammar_cases.
  destruct (grammar_tool_check ext text (env w)) as [[matches | msg] e'];
    cbv zeta; intros [= <- <-]; [discriminate | reflexivity].
Qed.

Lemma suggest_failed text ml w resp w' :
  suggest_improvements ext (request text ml) w = (resp, w') ->
  http_status resp = 500 ->
  stats w' = bump_words (count_words text) (stats w).
Proof.
  rewrite suggest_cases.
  destruct (sent_tokenize ext text (env w)) as [[sentences | msg] e'];
    cbv zeta; intros [= <- <-]; [discriminate | reflexivity].
Qed.

Lemma no_text_not_500 (handler : Request -> Handler (E:=E)) ml w resp w' :
  handler {| req_text := None; req_max_length := ml |} w = (resp, w') ->
  (handler = check_grammar ext \/ handler = suggest_improvements ext \/
   handler = analyze_text ext) ->
  http_status resp <> 500.
Proof.
  intros Hrun [-> | [-> | ->]]; cbv in Hrun; injection Hrun as <- _;
    discriminate.
Qed.

(** C1 (as the code has it).  A request to /check-grammar, /analyze or
    /suggest that ends in HTTP 500 had a text and leaves
    grammar_errors_found and suggestions_made as they were.  words_checked
    is added to as soon as the words are counted, before the grammar tool
    or the segmenter is called: after a failed /check-grammar or /suggest
    it has grown by the word count of the text, and after a failed
    /analyze it is unchanged when the first segmentation failed and has
    grown by the word count when the second one did. *)
Theorem C1_failed_request_counters req w resp w' :
  check_grammar ext req w = (resp, w') \/
  suggest_improvements ext req w = (resp, w') \/
  analyze_text ext req w = (resp, w') ->
  http_status resp = 500 ->
  exists text,
    req_text req = Some text /\
    grammar_errors_found (stats w') = grammar_errors_found (stats w) /\
    suggestions_made (stats w') = suggestions_made (stats w) /\
    (words_checked (stats w') = words_checked (stats w) \/
     words_checked (stats w') = words_checked (stats w) + count_words text) /\
    (check_grammar ext req w = (resp, w') ->
     words_checked (stats w') = words_checked (stats w) + count_words text) /\
    (suggest_improvements ext req w = (resp, w') ->
     words_checked (stats w') = words_checked (stats w) + count_words text) /\
    (analyze_text ext req w = (resp, w') ->
     (exists msg e', sent_tokenize ext text (env w) = (Err msg, e') /\
                     words_checked (stats w') = words_checked (stats w)) \/
     (exists tokens e', sent_tokenize ext text (env w) = (Ok tokens, e') /\
                        words_checked (stats w') =
                          words_checked (stats w) + count_words text)).
Proof.
  intros Hrun H500. destruct req as [[text |] ml].
  2: { exfalso.
       destruct Hrun as [Hrun | [Hrun | Hrun]];
         (eapply no_text_not_500; [exact Hrun | | exact H500]); auto. }
  change {| req_text := Some text; req_max_length := ml |}
    with (request text ml) in *.
  exists text. split; [reflexivity |].
  assert (Hstats : stats w' = stats w \/
                   stats w' = bump_words (count_words text) (stats w)).
  { destruct Hrun as [Hrun | [Hrun | Hrun]].
    - right. eapply check_grammar_failed; eassumption.
    - right. eapply suggest_failed; eassumption.
    - destruct (analyze_failed _ _ _ _ _ Hrun H500)
        as [(? & ? & _ & Hs) | (? & ? & _ & Hs)]; auto. }
  split_and!.
  - destruct Hstats as [-> | ->]; reflexivity.
  - destruct Hstats as [-> | ->]; reflexivity.
  - destruct Hstats as [-> | ->]; [left | right]; reflexivity.
  - intros H. rewrite (check_grammar_failed _ _ _ _ _ H H500). reflexivity.
  - intros H. rewrite (suggest_failed _ _ _ _ _ H H500). reflexivity.
  - intros H.
    destruct (analyze_failed _ _ _ _ _ H H500)
      as [(msg & e' & Hcall & Hs) | (tokens & e' & Hcall & Hs)].
    + left. exists msg, e'. rewrite Hs. auto.
    + right. exists tokens, e'. rewrite Hs. auto.
Qed.

(** C8. Whatever the counters and the cache held, /reset answers with the
    three counters at 0 and leaves the store with the three counters at 0
    and an empty cache of analysis results. *)
Theorem C8_reset (w : World E) :
  let (resp, w') := reset_stats w in
  resp =
    {| http_status := 200;
       body := ResetBody "Stats reset successfully"
                 {| words_checked := 0; grammar_errors_found := 0;
                    suggestions_made := 0 |} |} /\
  words_checked (stats w') = 0 /\
  grammar_errors_found (stats w') = 0 /\
  suggestions_made (stats w') = 0 /\
  analysis_results w' = ∅.
Proof. cbn. split_and!; reflexivity. Qed.

(** C10. A successful request to /complete adds exactly 1 to
    suggestions_made and leaves words_checked and grammar_errors_found as
    they were. *)
Theorem C10_complete_counters req w resp w' :
  complete_text ext req w = (resp, w') ->
  http_status resp = 200 ->
  suggestions_made (stats w') = suggestions_made (stats w) + 1 /\
  words_checked (stats w') = words_checked (stats w) /\
  grammar_errors_found (stats w') = grammar_errors_found (stats w).
Proof.
  destruct req as [[text |] ml].
  2: { cbv. intros [= <- _]. discriminate. }
  change {| req_text := Some text; req_max_length := ml |}
    with (request text ml).
  pose proof (complete_cases text ml w) as Hcases. cbv zeta in Hcases.
  rewrite Hcases.
  destruct (text_generator ext _ _ (env w)) as [[full | msg] e'];
    intros [= <- <-]; [| discriminate].
  intros _. split_and!; reflexivity.
Qed.
End Counters.

(** ** Worked cases *)

Lemma letter_answer :
  (analyze_text Demo.steady (request Demo.letter None) (Demo.fresh tt)).1 =
  Demo.letter_response.
Proof. vm_compute. reflexivity. Qed.

Lemma letter_analyzed :
  analyze_text Demo.steady (request Demo.letter None) (Demo.fresh tt) =
  (Demo.letter_response,
   (analyze_text Demo.steady (request Demo.letter None) (Demo.fresh tt)).2).
Proof. rewrite <- letter_answer. apply surjective_pairing. Qed.

Lemma C6_word_count_padding_witness :
  (whitespace Demo.blank /\ whitespace (txt " ")) /\
  count_words (Demo.blank ++ Demo.cat_text ++ txt " ") =
    count_words Demo.cat_text /\
  count_words Demo.cat_text = Z.of_nat (count_runs false Demo.cat_text).
Proof.
  assert (Hp : whitespace Demo.blank) by (repeat constructor).
  assert (Hs : whitespace (txt " ")) by (repeat constructor).
  split; [split; assumption |].
  exact (C6_word_count_padding Demo.blank Demo.cat_text (txt " ") Hp Hs).
Defined.

Lemma C10_complete_counters_witness :
  exists resp w',
    complete_text Demo.steady (request Demo.cat_text None) (Demo.fresh tt) =
      (resp, w') /\
    http_status resp = 200 /\
    suggestions_made (stats w') = suggestions_made (stats (Demo.fresh tt)) + 1 /\
    words_checked (stats w') = words_checked (stats (Demo.fresh tt)) /\
    grammar_errors_found (stats w') =
      grammar_errors_found (stats (Demo.fresh tt)).
Proof.
  do 2 eexists. split; [vm_compute; reflexivity |]. split; [reflexivity |].
  eapply (C10_complete_counters Demo.steady (request Demo.cat_text None));
    vm_compute; reflexivity.
Defined.

(** /suggest on "The cat cat sat on on the mat" while the segmenter fails:
    the answer is a 500 and words_checked has gone from 0 to 8. *)
Lemma C1_counterexample :
  http_status
    (suggest_improvements Demo.offline (request Demo.cat_text None)
       (Demo.fresh tt)).1 = 500 /\
  words_checked (stats (Demo.fresh tt)) = 0 /\
  words_checked
    (stats (suggest_improvements Demo.offline (request Demo.cat_text None)
              (Demo.fresh tt)).2) = 8 /\
  ~ (forall (ext : Collaborators unit) req w resp w',
       check_grammar ext req w = (resp, w') \/
       suggest_improvements ext req w = (resp, w') \/
       analyze_text ext req w = (resp, w') ->
       http_status resp = 500 ->
       stats w' = stats w).
Proof.
  split_and!; [vm_compute; reflexivity .. |].
  intros Hclaim.
  pose (out := suggest_improvements Demo.offline
                 (request Demo.cat_text None) (Demo.fresh tt)).
  assert (Hsame : stats out.2 = stats (Demo.fresh tt)).
  { apply (Hclaim Demo.offline (request Demo.cat_text None) (Demo.fresh tt)
             out.1 out.2).
    - right. left. vm_compute. reflexivity.
    - vm_compute. reflexivity. }
  vm_compute in Hsame. discriminate Hsame.
Qed.

Lemma C1_failed_request_counters_witness :
  exists resp w',
    suggest_improvements Demo.offline (request Demo.cat_text None)
      (Demo.fresh tt) = (resp, w') /\
    http_status resp = 500 /\
    grammar_errors_found (stats w') =
      grammar_errors_found (stats (Demo.fresh tt)) /\
    suggestions_made (stats w') = suggestions_made (stats (Demo.fresh tt)) /\
    words_checked (stats w') =
      words_checked (stats (Demo.fresh tt)) + count_words Demo.cat_text.
Proof.
  do 2 eexists. split; [vm_compute; reflexivity |]. split; [reflexivity |].
  match goal with
  | |- grammar_errors_found (stats ?w1) = _ /\ _ =>
      destruct (C1_failed_request_counters Demo.offline
                  (request Demo.cat_text None) (Demo.fresh tt)
                  {| http_status := 500;
                     body := ErrorBody "punkt not found" |} w1)
        as (text & Htext & Hg & Hs & _ & _ & Hw & _)
  end.
  - right. left. vm_compute. reflexivity.
  - reflexivity.
  - injection Htext as <-.
    split; [exact Hg |]. split; [exact Hs |].
    apply Hw. vm_compute. reflexivity.
Defined.

Lemma C2_suggestion_count_witness :
  exists sg n st w',
    suggest_improvements Demo.steady (request Demo.cat_text None)
      (Demo.fresh tt) = (respond (SuggestBody sg n st), w') /\
    n = 3 /\
    n = len (long_sentences sg) + len (passive_voice sg)
        + len (repeated_words sg) + len (general_suggestions sg) /\
    suggestions_made (stats w') = suggestions_made (stats (Demo.fresh tt)) + n /\
    st = stats w' /\
    (advice_shorten ∈ general_suggestions sg <-> 2 < len (long_sentences sg)) /\
    (advice_active ∈ general_suggestions sg <-> 2 < len (passive_voice sg)) /\
    (advice_expand ∈ general_suggestions sg <->
       count_words Demo.cat_text < 100) /\
    (advice_sections ∈ general_suggestions sg <->
       1000 < count_words Demo.cat_text) /\
    (forall x, x ∈ general_suggestions sg ->
       x ∈ [advice_shorten; advice_active; advice_expand; advice_sections]) /\
    NoDup (general_suggestions sg) /\
    ~ (advice_expand ∈ general_suggestions sg /\
       advice_sections ∈ general_suggestions sg).
Proof.
  do 4 eexists. split; [vm_compute; reflexivity |]. split; [reflexivity |].
  eapply (C2_suggestion_count Demo.steady Demo.cat_text None (Demo.fresh tt)).
  vm_compute. reflexivity.
Defined.

Lemma C3_readability_issues_witness :
  exists a ri st w',
    analyze_text Demo.steady (request Demo.letter None) (Demo.fresh tt) =
      (respond (AnalyzeBody a ri st), w') /\
    (has_issue "long_sentences" ri <-> (25 < avg_sentence_length a)%Q) /\
    (has_issue "short_sentences" ri <->
       (avg_sentence_length a < 10)%Q /\ 3 < sentence_count a /\
       ~ (25 < avg_sentence_length a)%Q) /\
    (ri = [] <->
       ~ (25 < avg_sentence_length a)%Q /\
       ~ ((avg_sentence_length a < 10)%Q /\ 3 < sentence_count a)) /\
    (length ri <= 1)%nat.
Proof.
  do 4 eexists. split; [exact letter_analyzed |].
  eapply (C3_readability_issues Demo.steady Demo.letter None (Demo.fresh tt)).
  exact letter_analyzed.
Defined.

Lemma C4_sentence_attachment_witness :
  exists sg n st w',
    suggest_improvements Demo.steady (request Demo.cat_text None)
      (Demo.fresh tt) = (respond (SuggestBody sg n st), w') /\
    passive_voice sg = [] /\
    repeated_words sg =
      attach [Demo.cat_text]
        (fun s m => {| rw_sentence := s; repeated_word := group1 m |})
        (finditer true repeated_word_regex Demo.cat_text) /\
    exists s1 s2,
      repeated_words sg =
        [{| rw_sentence := s1; repeated_word := Some (txt "cat") |};
         {| rw_sentence := s2; repeated_word := Some (txt "on") |}].
Proof.
  do 4 eexists. split; [vm_compute; reflexivity |]. split; [reflexivity |].
  match goal with
  | |- repeated_words ?sg = _ /\ _ =>
      destruct (C4_sentence_attachment Demo.steady Demo.cat_text None
                  (Demo.fresh tt) sg 3
                  {| words_checked := 8; grammar_errors_found := 0;
                     suggestions_made := 3 |}
                  (with_call (Segment Demo.cat_text) tt
                     {| words_checked := 8; grammar_errors_found := 0;
                        suggestions_made := 3 |} (Demo.fresh tt)))
        as (sentences & e' & Htok & _ & Hrep & _ & _ & _ & _ & Hcat)
  end.
  - vm_compute. reflexivity.
  - cbn in Htok. injection Htok as <- _.
    split; [exact Hrep |].
    destruct (Hcat eq_refl) as [_ Hboth].
    apply Hboth; exists Demo.cat_text;
      (split; [apply list_elem_of_here | vm_compute; reflexivity]).
Defined.

Lemma C5_blank_text_witness :
  whitespace Demo.blank /\
  exists a ri st w',
    analyze_text Demo.offline (request Demo.blank None) (Demo.fresh tt) =
      (respond (AnalyzeBody a ri st), w') /\
    sentence_count a = 0 /\
    avg_word_length a = 0%Q /\
    avg_sentence_length a = 0%Q /\
    List.filter valid_paragraph (split_paragraphs Demo.blank) = [] /\
    sentiment_results a = [] /\
    journal w' = journal (Demo.fresh tt) /\
    env w' = env (Demo.fresh tt).
Proof.
  assert (Hblank : whitespace Demo.blank) by (repeat constructor).
  split; [exact Hblank |].
  exact (C5_blank_text Demo.offline Demo.blank None (Demo.fresh tt) Hblank).
Defined.

Lemma C7_overall_sentiment_witness :
  exists a ri st w',
    analyze_text Demo.steady (request Demo.letter None) (Demo.fresh tt) =
      (respond (AnalyzeBody a ri st), w') /\
    overall_sentiment a = "Mostly Positive"%string /\
    (overall_sentiment a = "Mostly Positive"%string <->
       (labelled "NEGATIVE" (sentiment_results a)
        < labelled "POSITIVE" (sentiment_results a))%nat) /\
    (overall_sentiment a = "Mostly Negative"%string <->
       (labelled "POSITIVE" (sentiment_results a)
        < labelled "NEGATIVE" (sentiment_results a))%nat) /\
    (overall_sentiment a = "Neutral"%string <->
       labelled "POSITIVE" (sentiment_results a) =
       labelled "NEGATIVE" (sentiment_results a)).
Proof.
  do 4 eexists. split; [exact letter_analyzed |]. split; [reflexivity |].
  eapply (C7_overall_sentiment Demo.steady Demo.letter None (Demo.fresh tt)).
  exact letter_analyzed.
Defined.

Lemma C9_short_paragraphs_skipped_witness :
  exists a ri st w',
    analyze_text Demo.steady (request Demo.letter None) (Demo.fresh tt) =
      (respond (AnalyzeBody a ri st), w') /\
    length (split_paragraphs Demo.letter) = 3%nat /\
    length (sentiment_results a) = 2%nat /\
    map full_paragraph (sentiment_results a) =
      List.filter (fun p => 3 <? len (strip p)) (split_paragraphs Demo.letter) /\
    (forall item, item ∈ sentiment_results a ->
       full_paragraph item ∈ split_paragraphs Demo.letter /\
       (3 < length (strip (full_paragraph item)))%nat) /\
    (forall p, (length (strip p) <= 3)%nat ->
       ~ exists item, item ∈ sentiment_results a /\ full_paragraph item = p) /\
    positive_paragraphs a =
      Z.of_nat (labelled "POSITIVE" (sentiment_results a)) /\
    negative_paragraphs a =
      Z.of_nat (labelled "NEGATIVE" (sentiment_results a)).
Proof.
  do 4 eexists. split; [exact letter_analyzed |].
  split; [vm_compute; reflexivity |]. split; [reflexivity |].
  eapply (C9_short_paragraphs_skipped Demo.steady Demo.letter None
            (Demo.fresh tt)).
  exact letter_analyzed.
Defined.

(** ** The scans on sample texts *)

Example words_of_two_sentences :
  findall false word_regex (txt "This is a test. This is another test.") =
    map txt ["This"; "is"; "a"; "test"; "This"; "is"; "another"; "test"] /\
  findall false word_regex (txt "don't stop_me 42x, ok?") =
    map txt ["don"; "t"; "stop_me"; "42x"; "ok"].
Proof. split; vm_compute; reflexivity. Qed.

Example passive_scan :
  map (fun m => (group0 m, group1 m))
    (finditer true passive_regex
       (txt "The report was written and is done. It has been  Approved by all.")) =
    [(txt "was written", Some (txt "written"));
     (txt "is done", Some (txt "done"));
     (txt "been  Approved", Some (txt "Approved"))] /\
  map (fun m => (group0 m, group1 m))
    (finditer true passive_regex (txt "being beened is ed")) =
    [(txt "being beened", Some (txt "beened"))] /\
  map group0
    (finditer true passive_regex
       (txt "It IS" ++ [newline] ++ txt "MADE; was madeup, were taken")) =
    [txt "IS" ++ [newline] ++ txt "MADE"; txt "were taken"].
Proof. split_and!; vm_compute; reflexivity. Qed.

Example repeated_scan :
  map (fun m => (group0 m, group1 m))
    (finditer true repeated_word_regex (txt "the The THE end")) =
    [(txt "the The", Some (txt "the"))] /\
  map group0 (finditer true repeated_word_regex (txt "aa a, a ab, ab AB")) =
    [txt "ab AB"] /\
  map group0 (finditer true repeated_word_regex (txt "is is is is")) =
    [txt "is is"; txt "is is"].
Proof. split_and!; vm_compute; reflexivity. Qed.

Example strip_and_split :
  strip (txt "  hello world " ++ [newline]) = txt "hello world" /\
  split_paragraphs (txt "a" ++ [newline; newline; newline] ++ txt "b"
                      ++ [newline; newline]) =
    [txt "a"; newline :: txt "b"; []].
Proof. split; vm_compute; reflexivity. Qed.

(** A pair that the segmentation cuts in two is in no sentence: the match
    is dropped. *)
Example dropped_match :
  map group0 (finditer true repeated_word_regex
                (txt "Stop" ++ [newline] ++ txt "stop now")) =
    [txt "Stop" ++ [newline] ++ txt "stop"] /\
  scan_repeated (txt "Stop" ++ [newline] ++ txt "stop now")
    [txt "Stop"; txt "stop now"] = [].
Proof. split; vm_compute; reflexivity. Qed.

(** /analyze fails after the words were counted when the segmenter answers
    the first call only. *)
Example analyze_second_call_fails :
  let out := analyze_text Demo.flaky (request Demo.cat_text None)
               (Demo.fresh 0%nat) in
  http_status out.1 = 500 /\
  stats out.2 = bump_words 8 zero_stats /\
  journal out.2 = [Segment Demo.cat_text; Segment Demo.cat_text].
Proof. split_and!; vm_compute; reflexivity. Qed.
